(** * golang-rest-api-template: configuration service and entrypoint

    A shallow embedding of [config/config.go] and [cmd/server/main.go],
    together with the parts of the Go runtime they call
    ([strconv.Atoi], [os.LookupEnv], [godotenv.Load]).

    Go strings are byte sequences and are embedded as [string]; Go's
    [int], [int64], [uint64] and [byte] are embedded as [Z] with the
    wrap-around written out.  The process environment is a finite map
    from variable names to values. *)

From Stdlib Require Import ZArith Lia Ascii String List Bool.
From stdpp Require Import base option gmap strings.

Local Open Scope Z_scope.

(** ** Package [strconv] *)

Module strconv.

(** [strconv.IntSize]: the service is built for 64-bit linux. *)
Definition intSize : Z := 64.

Inductive NumError : Type := ErrSyntax | ErrRange | ErrBitSize.

Definition is_range (e : NumError) : bool :=
  match e with ErrRange => true | _ => false end.

(** Conversions to fixed-width integer types. *)
Definition wrap_unsigned (bits z : Z) : Z := z mod 2 ^ bits.
Definition wrap_signed (bits z : Z) : Z :=
  (z + 2 ^ (bits - 1)) mod 2 ^ bits - 2 ^ (bits - 1).

Definition byte (z : Z) : Z := wrap_unsigned 8 z.
Definition uint64 (z : Z) : Z := wrap_unsigned 64 z.
Definition int64 (z : Z) : Z := wrap_signed 64 z.
Definition int (z : Z) : Z := wrap_signed intSize z.

Definition maxUint64 : Z := 2 ^ 64 - 1.

(** The byte value of a character of a Go string. *)
Definition code (c : ascii) : Z := Z.of_N (N_of_ascii c).

(** [lower(c)]: [c | ('x' - 'X')]. *)
Definition lower (c : Z) : Z := Z.lor c 32.

(** The digit loop of [ParseUint] at [base = 10].  The underscore case
    is guarded by [base == 0] and is therefore never taken. *)
Fixpoint ParseUint_loop (cutoff maxVal : Z) (cs : string) (n : Z)
  : Z * option NumError :=
  match cs with
  | EmptyString => (n, None)
  | String ch rest =>
      let c := code ch in
      let d :=
        if (48 <=? c) && (c <=? 57) then Some (byte (c - 48))
        else if (97 <=? lower c) && (lower c <=? 122)
             then Some (byte (lower c - 97 + 10))
             else None in
      match d with
      | None => (0, Some ErrSyntax)
      | Some d =>
          if byte 10 <=? d then (0, Some ErrSyntax)
          else if cutoff <=? n then (maxVal, Some ErrRange)
          else
            let n' := uint64 (n * 10) in
            let n1 := uint64 (n' + d) in
            if (n1 <? n') || (maxVal <? n1) then (maxVal, Some ErrRange)
            else ParseUint_loop cutoff maxVal rest n1
      end
  end.

(** [ParseUint(s, 10, bitSize)]. *)
Definition ParseUint (s : string) (bitSize : Z) : Z * option NumError :=
  if String.eqb s EmptyString then (0, Some ErrSyntax)
  else if (bitSize <? 0) || (64 <? bitSize) then (0, Some ErrBitSize)
  else
    let bitSize := if bitSize =? 0 then intSize else bitSize in
    let cutoff := maxUint64 / 10 + 1 in
    let maxVal := uint64 (Z.shiftl 1 bitSize - 1) in
    ParseUint_loop cutoff maxVal s 0.

(** [ParseInt(s, 10, bitSize)]. *)
Definition ParseInt (s : string) (bitSize : Z) : Z * option NumError :=
  match s with
  | EmptyString => (0, Some ErrSyntax)
  | String c0 tl =>
      let neg := Ascii.eqb c0 "-" in
      let s' := if Ascii.eqb c0 "+" then tl
                else if Ascii.eqb c0 "-" then tl else s in
      let '(un, err) := ParseUint s' bitSize in
      if match err with Some e => negb (is_range e) | None => false end
      then (0, err)
      else
        let bitSize := if bitSize =? 0 then intSize else bitSize in
        let cutoff := uint64 (Z.shiftl 1 (bitSize - 1)) in
        if negb neg && (cutoff <=? un)
        then (int64 (cutoff - 1), Some ErrRange)
        else if neg && (cutoff <? un)
        then (int64 (- int64 cutoff), Some ErrRange)
        else (if neg then int64 (- int64 un) else int64 un, None)
  end.

(** The digit loop of the fast path of [Atoi]; [None] is the syntax
    error. *)
Fixpoint Atoi_loop (cs : string) (n : Z) : option Z :=
  match cs with
  | EmptyString => Some n
  | String ch rest =>
      let ch := byte (code ch - 48) in
      if 9 <? ch then None
      else Atoi_loop rest (int (n * 10 + int ch))
  end.

(** [Atoi(s)]. *)
Definition Atoi (s : string) : Z * option NumError :=
  let sLen := Z.of_nat (String.length s) in
  if ((intSize =? 32) && ((0 <? sLen) && (sLen <? 10)))
     || ((intSize =? 64) && ((0 <? sLen) && (sLen <? 19)))
  then
    match s with
    | EmptyString => (0, Some ErrSyntax)
    | String c0 tl =>
        let signed := Ascii.eqb c0 "-" || Ascii.eqb c0 "+" in
        let s' := if signed then tl else s in
        if signed && (Z.of_nat (String.length s') <? 1)
        then (0, Some ErrSyntax)
        else
          match Atoi_loop s' 0 with
          | None => (0, Some ErrSyntax)
          | Some n => (if Ascii.eqb c0 "-" then int (- n) else n, None)
          end
    end
  else
    let '(i64, err) := ParseInt s 0 in
    (int i64, err).

End strconv.

Local Close Scope Z_scope.

(** ** The process: environment, optional [.env] file, observable events *)

(** What [godotenv.Load] finds in the working directory: no [.env] file,
    one that cannot be read, one that cannot be parsed, or one that
    parses to a set of key/value pairs. *)
Inductive DotEnvFile : Type :=
| FileAbsent
| FileUnreadable
| FileMalformed
| FileParsed (pairs : gmap string string).

Inductive Level : Type := LevelInfo | LevelFatal.

Inductive Event : Type :=
| EvStdout (out : string)
| EvLoadDotEnv
| EvLookupEnv (key : string)
| EvLog (lvl : Level) (msg : string) (fields : list (string * string))
| EvStart (subsystem : string)
| EvStop (subsystem : string).

(** What ends the serving phase. *)
Inductive Trigger : Type :=
| TerminationSignal
| RuntimeFailure (detail : string).

(** Conditions of the host that the lifecycle controller meets. *)
Record Host : Type := {
  logger_fault : option string;
  wiring_fault : option string;
  run_trigger : Trigger;
  shutdown_fault : option string
}.

Record World : Type := {
  args : list string;
  environ : gmap string string;
  dotenv : DotEnvFile;
  host : Host;
  trace : list Event
}.

Definition emit (e : Event) (w : World) : World :=
  {| args := args w; environ := environ w; dotenv := dotenv w;
     host := host w; trace := trace w ++ [e] |}.

Definition set_environ (env : gmap string string) (w : World) : World :=
  {| args := args w; environ := env; dotenv := dotenv w;
     host := host w; trace := trace w |}.

(** Go's [error] interface value; [None] is [nil]. *)
Definition error : Type := option string.

(** Computations that read and change the process state.  A
    computation either returns or ends the process ([os.Exit]). *)
Inductive Outcome (A : Type) : Type :=
| Returned (a : A)
| Exited (status : Z).
Arguments Returned {A} a.
Arguments Exited {A} status.

Definition IO (A : Type) : Type := World -> Outcome A * World.

Definition ret {A} (a : A) : IO A := fun w => (Returned a, w).
Definition bind {A B} (m : IO A) (k : A -> IO B) : IO B :=
  fun w =>
    match m w with
    | (Returned a, w') => k a w'
    | (Exited status, w') => (Exited status, w')
    end.

Declare Scope io_scope.
Delimit Scope io_scope with io.
Notation "'let!' x ':=' m 'in' k" := (bind m (fun x => k))
  (at level 10, x pattern, m at level 100, k at level 200) : io_scope.

Definition emit_io (e : Event) : IO unit := fun w => (Returned tt, emit e w).

(** The exit status of a process whose [main] ran as [o]: returning
    from [main] is status 0. *)
Definition exit_status (o : Outcome unit) : Z :=
  match o with
  | Returned _ => 0%Z
  | Exited status => status
  end.

(** ** Packages [os] and [godotenv] *)

Module os.

(** [os.LookupEnv(key)]. *)
Definition LookupEnv (key : string) : IO (option string) :=
  fun w => (Returned (environ w !! key), emit (EvLookupEnv key) w).

(** A byte occurs in a string. *)
Fixpoint has_byte (b : ascii) (s : string) : bool :=
  match s with
  | EmptyString => false
  | String c rest => Ascii.eqb c b || has_byte b rest
  end.

(** [os.Setenv(key, value)] sets the variable unless it fails with
    EINVAL, which it does for an empty key, for a key that holds ['=']
    or a NUL byte, and for a value that holds a NUL byte; the
    environment is then left as it was. *)
Definition Setenv_accepts (key value : string) : bool :=
  negb (String.eqb key EmptyString)
  && negb (has_byte "=" key) && negb (has_byte "000" key)
  && negb (has_byte "000" value).

(** [os.Exit(code)]. *)
Definition Exit {A} (code : Z) : IO A := fun w => (Exited code, w).

(** [os.Args]. *)
Definition Args : IO (list string) := fun w => (Returned (args w), w).

End os.

Module godotenv.

(** The pairs of a parsed file that [os.Setenv] accepts. *)
Definition exported (pairs : gmap string string) : gmap string string :=
  filter (fun kv => Is_true (os.Setenv_accepts (fst kv) (snd kv))) pairs.

(** [godotenv.Load()]: reads [.env]; on success every pair whose key
    is not yet in the process environment is handed to [os.Setenv],
    whose error is dropped: existing variables are never overridden,
    and a pair that [os.Setenv] refuses is silently left out.  When the
    file cannot be opened or parsed the environment is left as it was
    and the error is returned. *)
Definition Load : IO error :=
  fun w =>
    let w' := emit EvLoadDotEnv w in
    match dotenv w with
    | FileAbsent =>
        (Returned (Some "open .env: no such file or directory"), w')
    | FileUnreadable =>
        (Returned (Some "open .env: permission denied"), w')
    | FileMalformed =>
        (Returned (Some "unexpected character in variable name"), w')
    | FileParsed pairs =>
        (Returned None, set_environ (environ w ∪ exported pairs) w')
    end.

End godotenv.

(** ** Package [config] *)

Module DBConfig.
Record t : Type := {
  Host : string;
  Port : string;
  User : string;
  Password : string;
  Name : string
}.
End DBConfig.

Module RedisConfig.
Record t : Type := {
  Host : string;
  Port : string;
  Password : string;
  DB : Z
}.
End RedisConfig.

Module ServerConf.
Record t : Type := {
  Address : string;
  Port : string
}.
End ServerConf.

Module JaegerConfig.
Record t : Type := {
  AgentHost : string;
  AgentPort : string
}.
End JaegerConfig.

Module config.

Local Open Scope io_scope.

Record Service : Type := {
  Name : string;
  dbEnv : DBConfig.t;
  redisEnv : RedisConfig.t;
  srvConfg : ServerConf.t;
  jaegerConfig : JaegerConfig.t
}.

(** [NewService]: only [Name] is given, the groups are zero values. *)
Definition NewService : Service :=
  {| Name := "go-rest-api-template";
     dbEnv :=
       DBConfig.Build_t EmptyString EmptyString EmptyString EmptyString
         EmptyString;
     redisEnv := RedisConfig.Build_t EmptyString EmptyString EmptyString 0%Z;
     srvConfg := ServerConf.Build_t EmptyString EmptyString;
     jaegerConfig := JaegerConfig.Build_t EmptyString EmptyString |}.

(** [getEnv]: the variable's value when it exists, else the default. *)
Definition getEnv (key defaultValue : string) : IO string :=
  let! r := os.LookupEnv key in
  match r with
  | Some value => ret value
  | None => ret defaultValue
  end.

(** [LoadConfig]: the receiver is updated in place, so the updated
    service is returned next to the error. *)
Definition LoadConfig (cnf : Service) : IO (Service * error) :=
  let! _ := godotenv.Load in
  let! dbPort := getEnv "DB_PORT" "3306" in
  let! dbHost := getEnv "DB_HOST" "localhost" in
  let! dbUser := getEnv "DB_USER" "user" in
  let! dbPassword := getEnv "DB_PASSWORD" "password" in
  let! dbName := getEnv "DB_NAME" "mydatabase" in
  let dbEnv' :=
    {| DBConfig.Port := dbPort; DBConfig.Host := dbHost;
       DBConfig.User := dbUser; DBConfig.Password := dbPassword;
       DBConfig.Name := dbName |} in
  let! redisDBText := getEnv "REDIS_DB" "0" in
  let redisDB := fst (strconv.Atoi redisDBText) in
  let! redisHost := getEnv "REDIS_HOST" "localhost" in
  let! redisPort := getEnv "REDIS_PORT" "6379" in
  let! redisPassword := getEnv "REDIS_PASSWORD" EmptyString in
  let redisEnv' :=
    {| RedisConfig.Host := redisHost; RedisConfig.Port := redisPort;
       RedisConfig.Password := redisPassword; RedisConfig.DB := redisDB |} in
  let! srvAddress := getEnv "SERVER_ADDR" EmptyString in
  let! srvPort := getEnv "SERVER_PORT" "8080" in
  let srvConfg' :=
    {| ServerConf.Address := srvAddress; ServerConf.Port := srvPort |} in
  let! agentHost := getEnv "JAEGER_AGENT_HOST" "localhost" in
  let! agentPort := getEnv "JAEGER_AGENT_PORT" "6831" in
  let jaegerConfig' :=
    {| JaegerConfig.AgentHost := agentHost;
       JaegerConfig.AgentPort := agentPort |} in
  ret ({| Name := Name cnf; dbEnv := dbEnv'; redisEnv := redisEnv';
          srvConfg := srvConfg'; jaegerConfig := jaegerConfig' |}, None).

(** [Init]. *)
Definition Init (cnf : Service) : IO (Service * error) := LoadConfig cnf.

Definition GetDBConfig (cnf : Service) : DBConfig.t := dbEnv cnf.
Definition GetRedisConfig (cnf : Service) : RedisConfig.t := redisEnv cnf.
Definition GetServerConfig (cnf : Service) : ServerConf.t := srvConfg cnf.
Definition GetJaegerConfig (cnf : Service) : JaegerConfig.t := jaegerConfig cnf.

End config.

(** ** Package [application] and the logger *)

Module logger.

Local Open Scope io_scope.

(** Modelled from the spec: the logger package is not among the
    sources; the entrypoint only consumes a logging capability. *)
Inductive Logger : Type := StructuredLogger.

(** Modelled from the spec: the logger package is not among the
    sources.  An informational entry is a structured log line. *)
Definition Info (l : Logger) (msg : string) (fields : list (string * string))
  : IO unit :=
  emit_io (EvLog LevelInfo msg fields).

(** Modelled from the spec: the logger package is not among the
    sources.  A fatal condition produces a structured log line (level,
    message, error detail) and then terminates the process with a
    non-zero status. *)
Definition Fatal (l : Logger) (msg : string) (fields : list (string * string))
  : IO unit :=
  let! _ := emit_io (EvLog LevelFatal msg fields) in
  os.Exit 1.

End logger.

Module application.

Local Open Scope io_scope.

(** Modelled from the spec: the package internal/application is not
    among the sources.  The lifecycle tag of the controller. *)
Inductive ApplicationState : Type :=
| Uninitialized
| Initialized
| Running
| ShuttingDown
| Stopped.

Record Application : Type := {
  state : ApplicationState;
  cfg : config.Service;
  owned : list string
}.

Definition host_condition {A} (f : Host -> A) : IO A :=
  fun w => (Returned (f (host w)), w).

Fixpoint stop_all (subsystems : list string) : IO unit :=
  match subsystems with
  | [] => ret tt
  | s :: rest => let! _ := emit_io (EvStop s) in stop_all rest
  end.

(** Modelled from the spec: the package internal/application is not
    among the sources.  The controller is constructed Uninitialized and
    owns the configuration service. *)
Definition uninitialized : Application :=
  {| state := Uninitialized; cfg := config.NewService; owned := [] |}.

(** Modelled from the spec: the package internal/application is not
    among the sources.  Construction has no effect on the process. *)
Definition NewApplication : IO Application := ret uninitialized.

(** Modelled from the spec: the accessor is usable whether or not
    initialization succeeded. *)
Definition GetLogger (app : Application) : logger.Logger :=
  logger.StructuredLogger.

(** Modelled from the spec: [Initialize] constructs the logger, invokes
    the configuration service, wires the subsystems that depend on the
    configuration, and returns an error as soon as one of these cannot
    be constructed; from any state other than Uninitialized it returns
    a descriptive error. *)
Definition Initialize (app : Application) : IO (Application * error) :=
  match state app with
  | Uninitialized =>
      let! lf := host_condition logger_fault in
      match lf with
      | Some e => ret (app, Some e)
      | None =>
          let! (cnf, err) := config.Init (cfg app) in
          let app' := {| state := Uninitialized; cfg := cnf; owned := [] |} in
          match err with
          | Some e => ret (app', Some e)
          | None =>
              let! wf := host_condition wiring_fault in
              match wf with
              | Some e => ret (app', Some e)
              | None =>
                  ret ({| state := Initialized; cfg := cnf;
                          owned := ["database"; "cache"; "tracer"] |}, None)
              end
          end
      end
  | _ => ret (app, Some "application: Initialize called twice")
  end.

(** Modelled from the spec: [Run] starts the serving subsystem, blocks
    until a termination signal or an unrecoverable runtime error, shuts
    the owned subsystems down in reverse order of initialization and
    returns nil on a clean shutdown; from any state other than
    Initialized it returns a descriptive error and does nothing else. *)
Definition Run (app : Application) : IO (Application * error) :=
  match state app with
  | Initialized =>
      let! _ := emit_io (EvStart "server") in
      let! trigger := host_condition run_trigger in
      let! _ := stop_all (rev (owned app ++ ["server"])) in
      let! sf := host_condition shutdown_fault in
      let app' := {| state := Stopped; cfg := cfg app; owned := owned app |} in
      match trigger, sf with
      | RuntimeFailure e, _ => ret (app', Some e)
      | TerminationSignal, Some e => ret (app', Some e)
      | TerminationSignal, None => ret (app', None)
      end
  | _ => ret (app, Some "application: Run called before Initialize")
  end.

End application.

(** ** Command [server] *)

Module server.

Local Open Scope io_scope.

(** The package variables [version], [commit] and [date], set at build
    time. *)
Record Build : Type := {
  version : string;
  commit : string;
  date : string
}.

Definition default_build : Build :=
  {| version := "dev"; commit := "none"; date := "unknown" |}.

Definition newline : string := String "010"%char EmptyString.

(** [fmt.Printf] of one format with one [%s] verb. *)
Definition Printf (before arg after : string) : IO unit :=
  emit_io (EvStdout (before +:+ arg +:+ after)).

(** [len(os.Args) > 1 && (os.Args[1] == "--version" || os.Args[1] == "-v")] *)
Definition version_flag (osArgs : list string) : bool :=
  (1 <? length osArgs)%nat
  && (String.eqb (nth 1 osArgs EmptyString) "--version"
      || String.eqb (nth 1 osArgs EmptyString) "-v").

(** The body of [main] after the version check. *)
Definition bootstrap (b : Build) : IO unit :=
  let! app := application.NewApplication in
  let! (app, err) := application.Initialize app in
  let! _ :=
    match err with
    | Some e =>
        logger.Fatal (application.GetLogger app)
          "failed to initialize application" [("error", e)]
    | None => ret tt
    end in
  let! _ :=
    logger.Info (application.GetLogger app) "starting application"
      [("version", version b); ("commit", commit b); ("built", date b)] in
  let! (app, err) := application.Run app in
  match err with
  | Some e =>
      logger.Fatal (application.GetLogger app)
        "application failed" [("error", e)]
  | None => ret tt
  end.

Definition main (b : Build) : IO unit :=
  let! osArgs := os.Args in
  let! _ :=
    if version_flag osArgs then
      let! _ := Printf "golang-rest-api-template " (version b) newline in
      let! _ := Printf "  commit: " (commit b) newline in
      let! _ := Printf "  built:  " (date b) newline in
      os.Exit 0
    else ret tt in
  bootstrap b.

End server.

(** ** Decimal integer literals

    What it means for the text of an integer setting to be numeric, said
    without reference to the parser: an optional sign followed by one or
    more ASCII digits, read in base ten. *)

Module decimal.

Local Open Scope Z_scope.

Definition is_digit (c : ascii) : bool :=
  (48 <=? strconv.code c) && (strconv.code c <=? 57).

(** The value of an all-digit text, continuing from [acc]; [None] when
    some character is not a digit. *)
Fixpoint digits_value (cs : string) (acc : Z) : option Z :=
  match cs with
  | EmptyString => Some acc
  | String c rest =>
      if is_digit c then digits_value rest (acc * 10 + (strconv.code c - 48))
      else None
  end.

(** The value of the longest all-digit prefix. *)
Fixpoint leading_value (cs : string) (acc : Z) : Z :=
  match cs with
  | EmptyString => acc
  | String c rest =>
      if is_digit c then leading_value rest (acc * 10 + (strconv.code c - 48))
      else acc
  end.

Definition is_sign (c : ascii) : bool := Ascii.eqb c "-" || Ascii.eqb c "+".

Definition unsigned_part (s : string) : string :=
  match s with
  | EmptyString => EmptyString
  | String c tl => if is_sign c then tl else s
  end.

Definition is_negative (s : string) : bool :=
  match s with
  | EmptyString => false
  | String c _ => Ascii.eqb c "-"
  end.

Definition decimal_literal (s : string) : option Z :=
  match unsigned_part s with
  | EmptyString => None
  | ds =>
      match digits_value ds 0 with
      | Some u => Some (if is_negative s then - u else u)
      | None => None
      end
  end.

(** A text that is not a decimal integer literal. *)
Definition non_numeric (s : string) : Prop := decimal_literal s = None.

(** The digits that precede the first offending character do not
    already exceed the range of a 64-bit unsigned integer. *)
Definition leading_digits_fit (s : string) : Prop :=
  leading_value (unsigned_part s) 0 < 2 ^ 64.

(** A literal whose value is representable in Go's [int]. *)
Definition int_literal (s : string) (z : Z) : Prop :=
  decimal_literal s = Some z /\ - 2 ^ 63 <= z < 2 ^ 63.

End decimal.

(** * The recognised variables and their documented defaults *)

Inductive EnvVar : Type :=
| DB_HOST | DB_PORT | DB_USER | DB_PASSWORD | DB_NAME
| REDIS_HOST | REDIS_PORT | REDIS_PASSWORD | REDIS_DB
| SERVER_ADDR | SERVER_PORT
| JAEGER_AGENT_HOST | JAEGER_AGENT_PORT.

Definition all_vars : list EnvVar :=
  [DB_HOST; DB_PORT; DB_USER; DB_PASSWORD; DB_NAME;
   REDIS_HOST; REDIS_PORT; REDIS_PASSWORD; REDIS_DB;
   SERVER_ADDR; SERVER_PORT; JAEGER_AGENT_HOST; JAEGER_AGENT_PORT].

Definition name (v : EnvVar) : string :=
  match v with
  | DB_HOST => "DB_HOST" | DB_PORT => "DB_PORT" | DB_USER => "DB_USER"
  | DB_PASSWORD => "DB_PASSWORD" | DB_NAME => "DB_NAME"
  | REDIS_HOST => "REDIS_HOST" | REDIS_PORT => "REDIS_PORT"
  | REDIS_PASSWORD => "REDIS_PASSWORD" | REDIS_DB => "REDIS_DB"
  | SERVER_ADDR => "SERVER_ADDR" | SERVER_PORT => "SERVER_PORT"
  | JAEGER_AGENT_HOST => "JAEGER_AGENT_HOST"
  | JAEGER_AGENT_PORT => "JAEGER_AGENT_PORT"
  end.

(** A setting is a string or an integer. *)
Inductive Value : Type :=
| VString (s : string)
| VInt (n : Z).

(** The table of defaults as the specification documents it. *)
Definition documented_default (v : EnvVar) : Value :=
  match v with
  | DB_HOST => VString "localhost"
  | DB_PORT => VString "3306"
  | DB_USER => VString "user"
  | DB_PASSWORD => VString "password"
  | DB_NAME => VString "mydatabase"
  | REDIS_HOST => VString "localhost"
  | REDIS_PORT => VString "6379"
  | REDIS_PASSWORD => VString EmptyString
  | REDIS_DB => VInt 0
  | SERVER_ADDR => VString EmptyString
  | SERVER_PORT => VString "8080"
  | JAEGER_AGENT_HOST => VString "localhost"
  | JAEGER_AGENT_PORT => VString "6831"
  end.

(** The field of the service that a variable configures. *)
Definition field (v : EnvVar) (cnf : config.Service) : Value :=
  match v with
  | DB_HOST => VString (DBConfig.Host (config.GetDBConfig cnf))
  | DB_PORT => VString (DBConfig.Port (config.GetDBConfig cnf))
  | DB_USER => VString (DBConfig.User (config.GetDBConfig cnf))
  | DB_PASSWORD => VString (DBConfig.Password (config.GetDBConfig cnf))
  | DB_NAME => VString (DBConfig.Name (config.GetDBConfig cnf))
  | REDIS_HOST => VString (RedisConfig.Host (config.GetRedisConfig cnf))
  | REDIS_PORT => VString (RedisConfig.Port (config.GetRedisConfig cnf))
  | REDIS_PASSWORD => VString (RedisConfig.Password (config.GetRedisConfig cnf))
  | REDIS_DB => VInt (RedisConfig.DB (config.GetRedisConfig cnf))
  | SERVER_ADDR => VString (ServerConf.Address (config.GetServerConfig cnf))
  | SERVER_PORT => VString (ServerConf.Port (config.GetServerConfig cnf))
  | JAEGER_AGENT_HOST =>
      VString (JaegerConfig.AgentHost (config.GetJaegerConfig cnf))
  | JAEGER_AGENT_PORT =>
      VString (JaegerConfig.AgentPort (config.GetJaegerConfig cnf))
  end.

Definition is_integer_setting (v : EnvVar) : bool :=
  match v with REDIS_DB => true | _ => false end.

(** What a supplied text becomes in the field: itself for a string
    setting, the result of the permissive parse for the integer one. *)
Definition parse_setting (v : EnvVar) (text : string) : Value :=
  if is_integer_setting v then VInt (fst (strconv.Atoi text))
  else VString text.

(** A valid value of a variable, and the setting it denotes: any text for
    a string setting, a decimal literal in the range of [int] for the
    integer one. *)
Definition valid_value (v : EnvVar) (text : string) (val : Value) : Prop :=
  if is_integer_setting v
  then exists z, decimal.int_literal text z /\ val = VInt z
  else val = VString text.

(** The pairs that a [.env] file contributes. *)
Definition dotenv_pairs (f : DotEnvFile) : gmap string string :=
  match f with
  | FileParsed pairs => pairs
  | _ => ∅
  end.

(** The environment that resolution sees: the process environment,
    completed by the pairs of the [.env] file. *)
Definition effective_environ (w : World) : gmap string string :=
  match dotenv w with
  | FileParsed pairs => environ w ∪ godotenv.exported pairs
  | _ => environ w
  end.

(** The pairs of a [.env] file that are exported when their variable is
    not yet set. *)
Definition exported_pairs (f : DotEnvFile) : gmap string string :=
  godotenv.exported (dotenv_pairs f).

Definition resolve (env : gmap string string) (key defaultValue : string)
  : string :=
  default defaultValue (env !! key).

(** The service that [LoadConfig] leaves behind in environment [env]. *)
Definition loaded (cnf : config.Service) (env : gmap string string)
  : config.Service :=
  {| config.Name := config.Name cnf;
     config.dbEnv :=
       {| DBConfig.Host := resolve env "DB_HOST" "localhost";
          DBConfig.Port := resolve env "DB_PORT" "3306";
          DBConfig.User := resolve env "DB_USER" "user";
          DBConfig.Password := resolve env "DB_PASSWORD" "password";
          DBConfig.Name := resolve env "DB_NAME" "mydatabase" |};
     config.redisEnv :=
       {| RedisConfig.Host := resolve env "REDIS_HOST" "localhost";
          RedisConfig.Port := resolve env "REDIS_PORT" "6379";
          RedisConfig.Password := resolve env "REDIS_PASSWORD" EmptyString;
          RedisConfig.DB := fst (strconv.Atoi (resolve env "REDIS_DB" "0")) |};
     config.srvConfg :=
       {| ServerConf.Address := resolve env "SERVER_ADDR" EmptyString;
          ServerConf.Port := resolve env "SERVER_PORT" "8080" |};
     config.jaegerConfig :=
       {| JaegerConfig.AgentHost := resolve env "JAEGER_AGENT_HOST" "localhost";
          JaegerConfig.AgentPort :=
            resolve env "JAEGER_AGENT_PORT" "6831" |} |}.

(** The reads of the environment that one [LoadConfig] performs. *)
Definition config_reads : list Event :=
  [EvLoadDotEnv;
   EvLookupEnv "DB_PORT"; EvLookupEnv "DB_HOST"; EvLookupEnv "DB_USER";
   EvLookupEnv "DB_PASSWORD"; EvLookupEnv "DB_NAME"; EvLookupEnv "REDIS_DB";
   EvLookupEnv "REDIS_HOST"; EvLookupEnv "REDIS_PORT";
   EvLookupEnv "REDIS_PASSWORD"; EvLookupEnv "SERVER_ADDR";
   EvLookupEnv "SERVER_PORT"; EvLookupEnv "JAEGER_AGENT_HOST";
   EvLookupEnv "JAEGER_AGENT_PORT"].

Definition after_load (w : World) : World :=
  {| args := args w; environ := effective_environ w; dotenv := dotenv w;
     host := host w; trace := trace w ++ config_reads |}.

(** * The entrypoint and the lifecycle controller *)

(** The first command-line argument is a version flag. *)
Definition version_query (osArgs : list string) : Prop :=
  exists prog flag rest,
    osArgs = prog :: flag :: rest /\ (flag = "--version" \/ flag = "-v").





Definition fatal_entry (msg detail : string) : Event :=
  EvLog LevelFatal msg [("error", detail)].

Definition starting_entry (b : server.Build) : Event :=
  EvLog LevelInfo "starting application"
    [("version", server.version b); ("commit", server.commit b);
     ("built", server.date b)].

(** [Initialize] succeeded and [Run] ended in a clean shutdown. *)
Definition clean_shutdown (b : server.Build) (w : World) : Prop :=
  exists app1 w1 app2 w2,
    application.Initialize application.uninitialized w
    = (Returned (app1, None), w1) /\
    application.Run app1 (emit (starting_entry b) w1)
    = (Returned (app2, None), w2) /\
    application.state app2 = application.Stopped /\
    run_trigger (host w) = TerminationSignal.

(** The constants of [ParseUint] at base 10 and [bitSize] 64. *)
Definition cutoff10 : Z := (strconv.maxUint64 / 10 + 1)%Z.
Definition maxVal64 : Z := strconv.uint64 (Z.shiftl 1 64 - 1).

(** * Concrete processes *)

Definition quiet_host : Host :=
  {| logger_fault := None; wiring_fault := None;
     run_trigger := TerminationSignal; shutdown_fault := None |}.

Definition process (osArgs : list string) (env : gmap string string)
  (f : DotEnvFile) : World :=
  {| args := osArgs; environ := env; dotenv := f; host := quiet_host;
     trace := [] |}.

(** The end-to-end scenario of the specification. *)
Definition scenario : World :=
  process ["server"]
    (<["DB_HOST" := "dbhost"]> (<["REDIS_DB" := "abc"]> ∅)) FileAbsent.

(** The cache database is selected by a signed decimal literal. *)
Definition numbered_scenario : World :=
  process ["server"] (<["REDIS_DB" := "-12"]> ∅) FileAbsent.

(** No variable is set, a [.env] file supplies the database port. *)
Definition dotenv_scenario : World :=
  process ["server"] ∅ (FileParsed (<["DB_PORT" := "5432"]> ∅)).

(** A malformed [REDIS_DB] whose leading digits overflow. *)
Definition overflow_scenario : World :=
  process ["server"] (<["REDIS_DB" := "99999999999999999999x"]> ∅) FileAbsent.

(** Every recognised variable is set to the empty string. *)
Definition empty_scenario : World :=
  process ["server"]
    (list_to_map (map (fun v => (name v, EmptyString)) all_vars)) FileAbsent.

(** A [.env] file that cannot be parsed. *)
Definition malformed_scenario : World :=
  process ["server"] (<["SERVER_PORT" := "9090"]> ∅) FileMalformed.

(** A process whose logger cannot be constructed. *)
Definition faulty_process : World :=
  {| args := ["server"]; environ := ∅; dotenv := FileAbsent;
     host := {| logger_fault := Some "logger: cannot open sink";
                wiring_fault := None; run_trigger := TerminationSignal;
                shutdown_fault := None |};
     trace := [] |}.

(** A serving phase that ends in a runtime failure. *)
Definition crashing_process : World :=
  {| args := ["server"; "serve"]; environ := ∅; dotenv := FileAbsent;
     host := {| logger_fault := None; wiring_fault := None;
                run_trigger := RuntimeFailure "listen tcp :8080: bind";
                shutdown_fault := None |};
     trace := [] |}.

(** A [.env] file supplies the cache database and the server port, the
    process environment the server port as well. *)
Definition layered_scenario : World :=
  process ["server"] (<["SERVER_PORT" := "9090"]> ∅)
    (FileParsed (<["REDIS_DB" := "3"]> (<["SERVER_PORT" := "7070"]> ∅))).


(** [REDIS_DB] holds a decimal literal beyond the range of [int]. *)
Definition huge_scenario : World :=
  process ["server"] (<["REDIS_DB" := "-9223372036854775809"]> ∅) FileAbsent.

(** * Changes to the process between two loads *)

(** [math.MaxInt64] and [math.MinInt64]. *)
Definition MaxInt64 : Z := 9223372036854775807.
Definition MinInt64 : Z := (-9223372036854775808)%Z.



(** The process after [os.Setenv(key, value)]. *)
Definition with_variable (key value : string) (w : World) : World :=
  set_environ (<[key := value]> (environ w)) w.

(** The process after the [.env] file in its working directory was
    replaced, removed or damaged. *)
Definition with_dotenv (f : DotEnvFile) (w : World) : World :=
  {| args := args w; environ := environ w; dotenv := f; host := host w;
     trace := trace w |}.

(** * Properties of [strconv.Atoi] *)

Section AtoiFacts.

Import strconv decimal.
Local Open Scope Z_scope.

Lemma code_range (c : ascii) : 0 <= code c < 256.
Proof.
  unfold code. pose proof (N_ascii_bounded c). lia.
Qed.

Lemma byte_small (z : Z) : 0 <= z < 256 -> byte z = z.
Proof.
  intros Hz. unfold byte, wrap_unsigned. apply Z.mod_small.
  change (2 ^ 8) with 256. lia.
Qed.

Lemma uint64_small (z : Z) : 0 <= z < 18446744073709551616 -> uint64 z = z.
Proof.
  intros Hz. unfold uint64, wrap_unsigned. apply Z.mod_small.
  change (2 ^ 64) with 18446744073709551616. lia.
Qed.

Lemma int64_small (z : Z) :
  - 9223372036854775808 <= z < 9223372036854775808 -> int64 z = z.
Proof.
  intros Hz. unfold int64, wrap_signed.
  change (2 ^ (64 - 1)) with 9223372036854775808.
  change (2 ^ 64) with 18446744073709551616.
  rewrite Z.mod_small by lia. lia.
Qed.

Lemma int_small (z : Z) :
  - 9223372036854775808 <= z < 9223372036854775808 -> int z = z.
Proof. exact (int64_small z). Qed.

Lemma is_digit_range (c : ascii) :
  is_digit c = true -> 48 <= code c <= 57.
Proof.
  unfold is_digit. intros H. apply andb_true_iff in H as [H1 H2]. lia.
Qed.

Lemma not_digit_range (c : ascii) :
  is_digit c = false -> code c < 48 \/ 57 < code c.
Proof.
  unfold is_digit. intros H. apply andb_false_iff in H as [H | H]; lia.
Qed.

(** The fast path's test [ch - '0' > 9] on a byte is the digit test. *)
Lemma fast_digit_test (c : ascii) :
  (9 <? byte (code c - 48)) = negb (is_digit c).
Proof.
  pose proof (code_range c) as Hc.
  destruct (is_digit c) eqn:Hd; cbn [negb].
  - apply is_digit_range in Hd. rewrite byte_small by lia. lia.
  - apply not_digit_range in Hd. destruct Hd as [Hd | Hd].
    + unfold byte, wrap_unsigned. change (2 ^ 8) with 256.
      replace (code c - 48) with (code c + 208 + (-1) * 256) by lia.
      rewrite Z_mod_plus_full, Z.mod_small by lia. lia.
    + rewrite byte_small by lia. lia.
Qed.

Lemma digits_value_le (cs : string) : forall acc u,
  0 <= acc -> digits_value cs acc = Some u -> acc <= u.
Proof.
  induction cs as [| c rest IH]; intros acc u Hacc H; cbn in H.
  - injection H as <-. lia.
  - destruct (is_digit c) eqn:Hd; [| discriminate].
    apply is_digit_range in Hd. apply IH in H; lia.
Qed.

Lemma leading_value_le (cs : string) : forall acc,
  0 <= acc -> acc <= leading_value cs acc.
Proof.
  induction cs as [| c rest IH]; intros acc Hacc; cbn.
  - lia.
  - destruct (is_digit c) eqn:Hd; [| lia].
    apply is_digit_range in Hd.
    specialize (IH (acc * 10 + (code c - 48))). lia.
Qed.

Lemma digits_value_bound (cs : string) : forall acc u,
  0 <= acc -> digits_value cs acc = Some u ->
  u < (acc + 1) * 10 ^ Z.of_nat (String.length cs).
Proof.
  induction cs as [| c rest IH]; intros acc u Hacc H; cbn in H.
  - injection H as <-. cbn. lia.
  - destruct (is_digit c) eqn:Hd; [| discriminate].
    apply is_digit_range in Hd. apply IH in H; [| lia].
    cbn [String.length]. rewrite Nat2Z.inj_succ, Z.pow_succ_r by lia.
    assert (0 < 10 ^ Z.of_nat (String.length rest))
      by (apply Z.pow_pos_nonneg; lia).
    nia.
Qed.

Lemma leading_value_bound (cs : string) : forall acc,
  0 <= acc ->
  leading_value cs acc < (acc + 1) * 10 ^ Z.of_nat (String.length cs).
Proof.
  induction cs as [| c rest IH]; intros acc Hacc;
    cbn [leading_value String.length].
  - cbn. lia.
  - rewrite Nat2Z.inj_succ, Z.pow_succ_r by lia.
    assert (0 < 10 ^ Z.of_nat (String.length rest))
      by (apply Z.pow_pos_nonneg; lia).
    destruct (is_digit c) eqn:Hd; [| nia].
    apply is_digit_range in Hd.
    specialize (IH (acc * 10 + (code c - 48)) ltac:(lia)). nia.
Qed.

(** *** The fast path *)

Lemma Atoi_loop_digits (cs : string) : forall acc u,
  0 <= acc -> digits_value cs acc = Some u -> u < 9223372036854775808 ->
  Atoi_loop cs acc = Some u.
Proof.
  induction cs as [| c rest IH]; intros acc u Hacc H Hu;
    cbn [digits_value Atoi_loop] in H |- *.
  - exact H.
  - rewrite fast_digit_test.
    destruct (is_digit c) eqn:Hd; [| discriminate]. cbn [negb].
    pose proof (is_digit_range c Hd) as Hc.
    assert (acc * 10 + (code c - 48) <= u) as Hle
      by (apply (digits_value_le rest); [lia | exact H]).
    rewrite byte_small by lia.
    rewrite (int_small (code c - 48)) by lia.
    rewrite int_small by lia.
    apply IH; [lia | exact H | exact Hu].
Qed.

Lemma Atoi_loop_not_digits (cs : string) : forall acc n,
  digits_value cs acc = None -> Atoi_loop cs n = None.
Proof.
  induction cs as [| c rest IH]; intros acc n H;
    cbn [digits_value Atoi_loop] in H |- *.
  - discriminate.
  - rewrite fast_digit_test.
    destruct (is_digit c); cbn [negb]; [| reflexivity].
    eapply IH, H.
Qed.

(** *** The slow path *)

Lemma cutoff10_value : cutoff10 = 1844674407370955162.
Proof. reflexivity. Qed.

Lemma maxVal64_value : maxVal64 = 18446744073709551615.
Proof. reflexivity. Qed.

(** One step of the loop of [ParseUint] on a digit that does not
    overflow. *)
Lemma ParseUint_loop_step (c : ascii) (rest : string) (n : Z) :
  is_digit c = true -> 0 <= n ->
  n * 10 + (code c - 48) <= 18446744073709551615 ->
  ParseUint_loop cutoff10 maxVal64 (String c rest) n
  = ParseUint_loop cutoff10 maxVal64 rest (n * 10 + (code c - 48)).
Proof.
  intros Hd Hn Hfit. pose proof (is_digit_range c Hd) as Hc.
  cbn [ParseUint_loop]. cbv zeta.
  replace ((48 <=? code c) && (code c <=? 57)) with true
    by (symmetry; apply andb_true_iff; lia).
  rewrite (byte_small (code c - 48)) by lia.
  rewrite (byte_small 10) by lia.
  replace (10 <=? code c - 48) with false by lia.
  rewrite cutoff10_value, maxVal64_value.
  replace (1844674407370955162 <=? n) with false by lia.
  rewrite (uint64_small (n * 10)) by lia.
  rewrite uint64_small by lia.
  replace (n * 10 + (code c - 48) <? n * 10) with false by lia.
  replace (18446744073709551615 <? n * 10 + (code c - 48)) with false by lia.
  reflexivity.
Qed.

(** A byte that is not a decimal digit is a syntax error, whether it
    is a letter (a digit of a larger base) or not. *)
Lemma ParseUint_loop_bad (c : ascii) (rest : string) (n : Z) :
  is_digit c = false ->
  ParseUint_loop cutoff10 maxVal64 (String c rest) n = (0, Some ErrSyntax).
Proof.
  intros Hd. cbn [ParseUint_loop]. cbv zeta.
  change ((48 <=? code c) && (code c <=? 57)) with (is_digit c).
  rewrite Hd.
  destruct ((97 <=? lower (code c)) && (lower (code c) <=? 122)) eqn:Hl;
    [| reflexivity].
  apply andb_true_iff in Hl as [H1 H2].
  rewrite (byte_small 10) by lia.
  rewrite (byte_small (lower (code c) - 97 + 10)) by lia.
  replace (10 <=? lower (code c) - 97 + 10) with true by lia.
  reflexivity.
Qed.

Lemma ParseUint_loop_digits (cs : string) : forall acc u,
  0 <= acc -> digits_value cs acc = Some u -> u <= 18446744073709551615 ->
  ParseUint_loop cutoff10 maxVal64 cs acc = (u, None).
Proof.
  induction cs as [| c rest IH]; intros acc u Hacc H Hu.
  - cbn in H |- *. congruence.
  - cbn [digits_value] in H.
    destruct (is_digit c) eqn:Hd; [| discriminate].
    pose proof (is_digit_range c Hd) as Hc.
    assert (acc * 10 + (code c - 48) <= u) as Hle
      by (apply (digits_value_le rest); [lia | exact H]).
    rewrite ParseUint_loop_step by (assumption || lia).
    apply IH; [lia | exact H | exact Hu].
Qed.

Lemma ParseUint_loop_syntax (cs : string) : forall acc,
  0 <= acc -> digits_value cs acc = None ->
  leading_value cs acc < 18446744073709551616 ->
  ParseUint_loop cutoff10 maxVal64 cs acc = (0, Some ErrSyntax).
Proof.
  induction cs as [| c rest IH]; intros acc Hacc H Hfit.
  - discriminate.
  - cbn [digits_value] in H. cbn [leading_value] in Hfit.
    destruct (is_digit c) eqn:Hd.
    + pose proof (is_digit_range c Hd) as Hc.
      pose proof (leading_value_le rest (acc * 10 + (code c - 48)) ltac:(lia)).
      rewrite ParseUint_loop_step by (assumption || lia).
      apply IH; [lia | exact H | exact Hfit].
    + apply ParseUint_loop_bad, Hd.
Qed.

Lemma ParseUint_nonempty (s : string) :
  s <> EmptyString ->
  ParseUint s 0 = ParseUint_loop cutoff10 maxVal64 s 0.
Proof.
  intros Hs. unfold ParseUint.
  destruct (String.eqb_spec s EmptyString); [contradiction | reflexivity].
Qed.

(** *** [Atoi] as a whole *)

Lemma Atoi_fast (s : string) :
  0 < Z.of_nat (String.length s) < 19 ->
  Atoi s =
    match s with
    | EmptyString => (0, Some ErrSyntax)
    | String c0 tl =>
        if is_sign c0 && (Z.of_nat (String.length tl) <? 1)
        then (0, Some ErrSyntax)
        else
          match Atoi_loop (unsigned_part s) 0 with
          | None => (0, Some ErrSyntax)
          | Some n => (if is_negative s then int (- n) else n, None)
          end
    end.
Proof.
  intros Hlen. unfold Atoi. cbv zeta.
  change (intSize =? 32) with false. change (intSize =? 64) with true.
  cbn [andb orb].
  replace ((0 <? Z.of_nat (String.length s))
           && (Z.of_nat (String.length s) <? 19)) with true
    by (symmetry; apply andb_true_iff; lia).
  destruct s as [| c0 tl]; [reflexivity |].
  cbn [unsigned_part is_negative]. unfold is_sign.
  destruct (Ascii.eqb c0 "-" || Ascii.eqb c0 "+"); reflexivity.
Qed.

Lemma Atoi_slow (s : string) :
  ~ (0 < Z.of_nat (String.length s) < 19) ->
  Atoi s = (int (fst (ParseInt s 0)), snd (ParseInt s 0)).
Proof.
  intros Hlen. unfold Atoi. cbv zeta.
  change (intSize =? 32) with false. change (intSize =? 64) with true.
  cbn [andb orb].
  replace ((0 <? Z.of_nat (String.length s))
           && (Z.of_nat (String.length s) <? 19)) with false
    by (symmetry; apply andb_false_iff; lia).
  destruct (ParseInt s 0); reflexivity.
Qed.

(** [ParseInt] strips the sign exactly as [unsigned_part] does. *)
Lemma ParseInt_unsigned_part (c0 : ascii) (tl : string) :
  (if Ascii.eqb c0 "+" then tl else if Ascii.eqb c0 "-" then tl
   else String c0 tl)
  = unsigned_part (String c0 tl).
Proof.
  cbn [unsigned_part]. unfold is_sign.
  destruct (Ascii.eqb c0 "+"), (Ascii.eqb c0 "-"); reflexivity.
Qed.

Lemma unsigned_part_length (s : string) :
  (String.length s <= S (String.length (unsigned_part s)))%nat.
Proof.
  destruct s as [| c0 tl]; cbn [unsigned_part String.length]; [lia |].
  destruct (is_sign c0); cbn [String.length]; lia.
Qed.

Lemma unsigned_part_shorter (s : string) :
  (String.length (unsigned_part s) <= String.length s)%nat.
Proof.
  destruct s as [| c0 tl]; cbn [unsigned_part String.length]; [lia |].
  destruct (is_sign c0); cbn [String.length]; lia.
Qed.

(** Nineteen digits cannot exceed the range of a 64-bit unsigned
    integer. *)
Lemma short_text_fits (s : string) :
  (String.length s <= 19)%nat -> leading_digits_fit s.
Proof.
  intros Hlen. unfold leading_digits_fit.
  pose proof (unsigned_part_shorter s) as Hsh.
  pose proof (leading_value_bound (unsigned_part s) 0 ltac:(lia)) as Hb.
  assert (10 ^ Z.of_nat (String.length (unsigned_part s)) <= 10 ^ 19)
    by (apply Z.pow_le_mono_r; lia).
  change (10 ^ 19) with 10000000000000000000 in *.
  change (2 ^ 64) with 18446744073709551616. lia.
Qed.

(** A text that is not a decimal literal, and whose leading digits do
    not overflow, is rejected with a syntax error and the value 0. *)
Lemma Atoi_non_numeric (s : string) :
  non_numeric s -> leading_digits_fit s -> Atoi s = (0, Some ErrSyntax).
Proof.
  unfold non_numeric, decimal_literal, leading_digits_fit.
  intros Hnn Hfit.
  destruct (Z_lt_dec 0 (Z.of_nat (String.length s))) as [Hpos |];
    [destruct (Z_lt_dec (Z.of_nat (String.length s)) 19) as [Hshort |] |].
  - (* fast path *)
    rewrite Atoi_fast by lia.
    destruct s as [| c0 tl]; [reflexivity |].
    destruct (unsigned_part (String c0 tl)) as [| d ds] eqn:Hu.
    + cbn [unsigned_part] in Hu. destruct (is_sign c0) eqn:Hs; [| discriminate].
      subst tl. reflexivity.
    + destruct (is_sign c0 && (Z.of_nat (String.length tl) <? 1));
        [reflexivity |].
      destruct (digits_value (String d ds) 0) eqn:Hdv; [discriminate |].
      rewrite (Atoi_loop_not_digits _ 0 0 Hdv). reflexivity.
  - (* slow path, nineteen bytes or more *)
    rewrite Atoi_slow by lia.
    destruct s as [| c0 tl]; [reflexivity |].
    unfold ParseInt. cbv zeta. rewrite ParseInt_unsigned_part.
    destruct (unsigned_part (String c0 tl)) as [| d ds] eqn:Hu.
    + reflexivity.
    + destruct (digits_value (String d ds) 0) eqn:Hdv; [discriminate |].
      rewrite ParseUint_nonempty by discriminate.
      rewrite ParseUint_loop_syntax; [reflexivity | lia | exact Hdv |].
      change (2 ^ 64) with 18446744073709551616 in Hfit. exact Hfit.
  - (* the empty text *)
    rewrite Atoi_slow by lia.
    destruct s as [| c0 tl]; [reflexivity | cbn [String.length] in *; lia].
Qed.

(** A decimal literal in the range of [int] is parsed to its value. *)
Lemma Atoi_int_literal (s : string) (z : Z) :
  int_literal s z -> Atoi s = (z, None).
Proof.
  unfold int_literal, decimal_literal.
  change (- 2 ^ 63) with (- 9223372036854775808).
  change (2 ^ 63) with 9223372036854775808.
  intros [Hlit Hrange].
  destruct (unsigned_part s) as [| d ds] eqn:Hu; [discriminate |].
  destruct (digits_value (String d ds) 0) as [u |] eqn:Hdv; [| discriminate].
  injection Hlit as Hz.
  assert (0 <= u) as Hu0
    by (apply (digits_value_le (String d ds)); [lia | exact Hdv]).
  pose proof (unsigned_part_length s) as Hlen1.
  pose proof (unsigned_part_shorter s) as Hlen2.
  rewrite Hu in Hlen1, Hlen2.
  destruct (Z_lt_dec (Z.of_nat (String.length s)) 19) as [Hshort | Hlong].
  - (* fast path *)
    rewrite Atoi_fast by (cbn [String.length] in Hlen2; lia).
    destruct s as [| c0 tl]; [discriminate |].
    assert (u < 1000000000000000000) as Hsmall.
    { assert (u < (0 + 1) * 10 ^ Z.of_nat (String.length (String d ds))) as Hb
        by (apply digits_value_bound; [lia | exact Hdv]).
      assert (10 ^ Z.of_nat (String.length (String d ds)) <= 10 ^ 18)
        by (apply Z.pow_le_mono_r; lia).
      change (10 ^ 18) with 1000000000000000000 in *. lia. }
    replace (is_sign c0 && (Z.of_nat (String.length tl) <? 1)) with false.
    2:{ symmetry. cbn [unsigned_part] in Hu.
        destruct (is_sign c0); [| reflexivity]. subst tl.
        cbn [andb String.length]. apply Z.ltb_ge. lia. }
    rewrite Hu, (Atoi_loop_digits _ 0 u) by (lia || exact Hdv).
    destruct (is_negative (String c0 tl)).
    + rewrite int_small by lia. congruence.
    + congruence.
  - (* slow path *)
    rewrite Atoi_slow by lia.
    destruct s as [| c0 tl]; [discriminate |].
    unfold ParseInt. cbv zeta. rewrite ParseInt_unsigned_part, Hu.
    rewrite ParseUint_nonempty by discriminate.
    rewrite (ParseUint_loop_digits _ 0 u)
      by (lia || exact Hdv || (destruct (is_negative (String c0 tl)); lia)).
    cbn [is_negative] in Hz.
    change (0 =? 0) with true. cbv iota.
    change (uint64 (Z.shiftl 1 (intSize - 1))) with 9223372036854775808.
    cbn [fst snd].
    destruct (Ascii.eqb c0 "-"); cbn [negb andb].
    + replace (9223372036854775808 <? u) with false by lia.
      cbn [fst snd]. f_equal.
      destruct (Z.eq_dec u 9223372036854775808) as [-> | Hne].
      * subst z. reflexivity.
      * rewrite (int64_small u) by lia.
        rewrite (int64_small (- u)) by lia.
        rewrite (int_small (- u)) by lia. exact Hz.
    + replace (9223372036854775808 <=? u) with false by lia.
      cbn [fst snd]. f_equal.
      rewrite (int64_small u) by lia. rewrite (int_small u) by lia. exact Hz.
Qed.

End AtoiFacts.

(** * Properties of the configuration service *)

Section ConfigFacts.

Import config.

Lemma bind_returned {A B} (m : IO A) (k : A -> IO B) (w w' : World) (a : A) :
  m w = (Returned a, w') -> bind m k w = k a w'.
Proof. intros H. unfold bind. rewrite H. reflexivity. Qed.

Lemma bind_exited {A B} (m : IO A) (k : A -> IO B) (w w' : World) (c : Z) :
  m w = (Exited c, w') -> bind m k w = (Exited c, w').
Proof. intros H. unfold bind. rewrite H. reflexivity. Qed.

Lemma getEnv_run (key defaultValue : string) (w : World) :
  getEnv key defaultValue w
  = (Returned (resolve (environ w) key defaultValue),
     emit (EvLookupEnv key) w).
Proof.
  unfold getEnv, bind, os.LookupEnv, resolve.
  destruct (environ w !! key); reflexivity.
Qed.

Lemma Load_run (w : World) :
  exists err,
    godotenv.Load w
    = (Returned err,
       set_environ (effective_environ w) (emit EvLoadDotEnv w)).
Proof.
  unfold godotenv.Load, effective_environ.
  destruct (dotenv w); eexists; reflexivity.
Qed.

(** [LoadConfig] returns, with a nil error, the service resolved in
    the effective environment. *)
Lemma LoadConfig_run (cnf : Service) (w : World) :
  LoadConfig cnf w
  = (Returned (loaded cnf (effective_environ w), None), after_load w).
Proof.
  unfold LoadConfig.
  destruct (Load_run w) as [err Hload].
  rewrite (bind_returned _ _ _ _ _ Hload). clear Hload.
  unfold after_load, config_reads.
  generalize (effective_environ w) as env. intros env.
  destruct w as [a e f h t].
  unfold emit at 1. unfold set_environ.
  cbn [environ args dotenv host trace].
  repeat (erewrite bind_returned by apply getEnv_run;
          unfold emit at 1; cbn [environ args dotenv host trace]).
  unfold ret, loaded.
  repeat rewrite <- app_assoc. reflexivity.
Qed.

Lemma lookup_exported (pairs : gmap string string) (key : string) :
  godotenv.exported pairs !! key
  = match pairs !! key with
    | Some text =>
        if os.Setenv_accepts key text then Some text else None
    | None => None
    end.
Proof.
  unfold godotenv.exported.
  destruct (pairs !! key) as [text |] eqn:Hk.
  - destruct (os.Setenv_accepts key text) eqn:Hok.
    + apply map_lookup_filter_Some. split; [exact Hk |].
      cbn [fst snd]. rewrite Hok. exact I.
    + apply map_lookup_filter_None. right. intros text' Hk' Hok'.
      rewrite Hk in Hk'. injection Hk' as <-.
      cbn [fst snd] in Hok'. rewrite Hok in Hok'. exact Hok'.
  - apply map_lookup_filter_None. left. exact Hk.
Qed.

Lemma exported_pairs_None (f : DotEnvFile) (key : string) :
  dotenv_pairs f !! key = None -> exported_pairs f !! key = None.
Proof.
  intros Hk. unfold exported_pairs. rewrite lookup_exported, Hk.
  reflexivity.
Qed.

Lemma lookup_effective_environ (w : World) (key : string) :
  effective_environ w !! key
  = match environ w !! key with
    | Some text => Some text
    | None => exported_pairs (dotenv w) !! key
    end.
Proof.
  unfold effective_environ, exported_pairs, dotenv_pairs.
  destruct (environ w !! key) as [text |] eqn:Hk.
  - destruct (dotenv w); try exact Hk.
    apply lookup_union_Some_l, Hk.
  - destruct (dotenv w); rewrite ?lookup_exported, ?lookup_empty;
      try exact Hk.
    rewrite lookup_union_r by exact Hk. apply lookup_exported.
Qed.

(** Each field of the loaded service is read off the environment. *)
Lemma field_loaded (v : EnvVar) (cnf : Service) (env : gmap string string) :
  field v (loaded cnf env)
  = match env !! name v with
    | Some text => parse_setting v text
    | None => documented_default v
    end.
Proof.
  destruct v; unfold field, loaded, resolve, parse_setting;
    cbn [GetDBConfig GetRedisConfig GetServerConfig GetJaegerConfig
         dbEnv redisEnv srvConfg jaegerConfig name is_integer_setting
         DBConfig.Host DBConfig.Port DBConfig.User DBConfig.Password
         DBConfig.Name RedisConfig.Host RedisConfig.Port
         RedisConfig.Password RedisConfig.DB ServerConf.Address
         ServerConf.Port JaegerConfig.AgentHost JaegerConfig.AgentPort];
    match goal with |- context [?e !! ?k] => destruct (e !! k) end;
    reflexivity.
Qed.

Lemma valid_value_parse (v : EnvVar) (text : string) (val : Value) :
  valid_value v text val -> parse_setting v text = val.
Proof.
  unfold valid_value, parse_setting.
  destruct (is_integer_setting v).
  - intros (z & Hlit & ->). rewrite (Atoi_int_literal _ _ Hlit). reflexivity.
  - intros ->. reflexivity.
Qed.

Lemma effective_environ_after_load (w : World) :
  effective_environ (after_load w) = effective_environ w.
Proof.
  destruct w as [a e f h t].
  unfold after_load, effective_environ. cbn [environ dotenv].
  destruct f; try reflexivity.
  rewrite <- (assoc_L (∪)), (idemp_L (∪)). reflexivity.
Qed.

End ConfigFacts.

Section ServerFacts.

Import application server.

Lemma version_flag_true (osArgs : list string) :
  version_flag osArgs = true <-> version_query osArgs.
Proof.
  unfold version_flag, version_query.
  destruct osArgs as [| prog [| flag rest]]; cbn [length nth].
  - split; [discriminate | intros (? & ? & ? & [=] & _)].
  - split; [discriminate | intros (? & ? & ? & [=] & _)].
  - change (1 <? S (S (length rest)))%nat with true. cbn [andb].
    rewrite orb_true_iff, !String.eqb_eq. split.
    + intros H. exists prog, flag, rest. split; [reflexivity | exact H].
    + intros (? & ? & ? & [= _ <- _] & H). exact H.
Qed.





Lemma main_other (b : Build) (w : World) :
  version_flag (args w) = false -> main b w = bootstrap b w.
Proof.
  intros Hflag. unfold main, bind, os.Args. rewrite Hflag. reflexivity.
Qed.

Lemma stop_all_returns (subsystems : list string) : forall w,
  exists w', stop_all subsystems w = (Returned tt, w').
Proof.
  induction subsystems as [| s rest IH]; intros w; cbn [stop_all].
  - eexists; reflexivity.
  - unfold bind, emit_io. apply IH.
Qed.

Lemma Initialize_returns (app : Application) (w : World) :
  exists app' err w', Initialize app w = (Returned (app', err), w').
Proof.
  unfold Initialize.
  destruct (state app); try (eexists _, _, _; reflexivity).
  unfold bind at 1. unfold host_condition at 1.
  destruct (logger_fault (host w)); [eexists _, _, _; reflexivity |].
  unfold config.Init.
  erewrite bind_returned by apply LoadConfig_run.
  unfold bind, host_condition.
  destruct (wiring_fault (host (after_load w)));
    eexists _, _, _; reflexivity.
Qed.

Lemma Run_returns (app : Application) (w : World) :
  exists app' err w', Run app w = (Returned (app', err), w').
Proof.
  unfold Run.
  destruct (state app); try (eexists _, _, _; reflexivity).
  unfold bind at 1. unfold emit_io at 1.
  unfold bind at 1. unfold host_condition at 1.
  destruct (stop_all_returns (rev (owned app ++ ["server"]))
              (emit (EvStart "server") w)) as [w' Hstop].
  erewrite bind_returned by exact Hstop.
  unfold bind, host_condition.
  destruct (run_trigger (host (emit (EvStart "server") w))),
           (shutdown_fault (host w'));
    eexists _, _, _; reflexivity.
Qed.

(** The course of [main] after the version check. *)
Lemma bootstrap_run (b : Build) (w : World) :
  exists app1 err1 w1,
    Initialize uninitialized w = (Returned (app1, err1), w1) /\
    match err1 with
    | Some e =>
        bootstrap b w
        = (Exited 1,
           emit (fatal_entry "failed to initialize application" e) w1)
    | None =>
        exists app2 err2 w2,
          Run app1 (emit (starting_entry b) w1)
          = (Returned (app2, err2), w2) /\
          bootstrap b w
          = match err2 with
            | Some e =>
                (Exited 1, emit (fatal_entry "application failed" e) w2)
            | None => (Returned tt, w2)
            end
    end.
Proof.
  destruct (Initialize_returns uninitialized w) as (app1 & err1 & w1 & Hinit).
  exists app1, err1, w1. split; [exact Hinit |].
  assert (bootstrap b w
          = bind (application.Initialize uninitialized)
              (fun '(app, err) =>
                 bind match err with
                      | Some e =>
                          logger.Fatal (GetLogger app)
                            "failed to initialize application" [("error", e)]
                      | None => ret tt
                      end
                   (fun _ =>
                      bind (emit_io (starting_entry b))
                        (fun _ =>
                           bind (application.Run app)
                             (fun '(app, err) =>
                                match err with
                                | Some e =>
                                    logger.Fatal (GetLogger app)
                                      "application failed" [("error", e)]
                                | None => ret tt
                                end)))) w) as Hboot by reflexivity.
  rewrite (bind_returned _ _ _ _ _ Hinit) in Hboot.
  destruct err1 as [e |].
  - rewrite Hboot. reflexivity.
  - destruct (Run_returns app1 (emit (starting_entry b) w1))
      as (app2 & err2 & w2 & Hrun).
    exists app2, err2, w2. split; [exact Hrun |].
    rewrite Hboot.
    unfold bind at 1. unfold ret at 1.
    unfold bind at 1. unfold emit_io at 1.
    rewrite (bind_returned _ _ _ _ _ Hrun).
    destruct err2; reflexivity.
Qed.

Lemma Initialize_keeps_host (app app' : Application) (err : error)
    (w w' : World) :
  Initialize app w = (Returned (app', err), w') -> host w' = host w.
Proof.
  unfold Initialize.
  destruct (state app); try (unfold ret; intros [= _ _ <-]; reflexivity).
  unfold bind at 1. unfold host_condition at 1.
  destruct (logger_fault (host w));
    [unfold ret; intros [= _ _ <-]; reflexivity |].
  unfold config.Init.
  erewrite bind_returned by apply LoadConfig_run.
  unfold bind, host_condition.
  destruct (wiring_fault (host (after_load w)));
    unfold ret; intros [= _ _ <-]; reflexivity.
Qed.

Lemma Run_nil (app app' : Application) (w w' : World) :
  Run app w = (Returned (app', None), w') ->
  state app = Initialized /\ state app' = Stopped
  /\ run_trigger (host w) = TerminationSignal.
Proof.
  unfold Run.
  destruct (state app); try (unfold ret; discriminate).
  unfold bind at 1. unfold emit_io at 1.
  unfold bind at 1. unfold host_condition at 1.
  destruct (stop_all_returns (rev (owned app ++ ["server"]))
              (emit (EvStart "server") w)) as [w2 Hstop].
  erewrite bind_returned by exact Hstop.
  unfold bind, host_condition. cbn [emit host].
  destruct (run_trigger (host w)), (shutdown_fault (host w2));
    unfold ret; try discriminate.
  intros [= <- _]. repeat split; reflexivity.
Qed.

End ServerFacts.

(** * The configuration service: resolution *)

Section ResolutionClaims.

Import config decimal.

(** C1 (as amended).  A recognised variable that is set neither in the
    process environment nor by a loaded [.env] file resolves to its
    documented default; one that is set in the process environment to a
    valid value resolves to exactly that value: the same string for a
    string setting, the integer that the decimal literal denotes for
    [REDIS_DB]. *)
Theorem LoadConfig_default_or_value
    (v : EnvVar) (cnf : Service) (w : World) :
  exists cnf' w',
    LoadConfig cnf w = (Returned (cnf', None), w') /\
    (environ w !! name v = None ->
     dotenv_pairs (dotenv w) !! name v = None ->
     field v cnf' = documented_default v) /\
    (forall text val,
        environ w !! name v = Some text -> valid_value v text val ->
        field v cnf' = val).
Proof.
  exists (loaded cnf (effective_environ w)), (after_load w).
  split; [apply LoadConfig_run |].
  rewrite field_loaded, lookup_effective_environ. split.
  - intros -> Hfile. rewrite (exported_pairs_None _ _ Hfile). reflexivity.
  - intros text val -> Hvalid. apply valid_value_parse, Hvalid.
Qed.

Lemma LoadConfig_default_or_value_witness :
  (exists cnf' w',
      LoadConfig NewService scenario = (Returned (cnf', None), w') /\
      field DB_PORT cnf' = VString "3306" /\
      field DB_HOST cnf' = VString "dbhost")
  /\ (exists cnf' w',
        LoadConfig NewService numbered_scenario
        = (Returned (cnf', None), w') /\
        field REDIS_DB cnf' = VInt (-12)).
Proof.
  split.
  - destruct (LoadConfig_default_or_value DB_PORT NewService scenario)
      as (cnf1 & w1 & Hrun1 & Hunset & _).
    destruct (LoadConfig_default_or_value DB_HOST NewService scenario)
      as (cnf2 & w2 & Hrun2 & _ & Hset).
    exists cnf1, w1. split; [exact Hrun1 |]. split.
    + apply Hunset; vm_compute; reflexivity.
    + assert (cnf2 = cnf1) as <- by congruence.
      apply (Hset "dbhost"); vm_compute; reflexivity.
  - destruct (LoadConfig_default_or_value REDIS_DB NewService
                numbered_scenario) as (cnf3 & w3 & Hrun3 & _ & Hset).
    exists cnf3, w3. split; [exact Hrun3 |].
    apply (Hset "-12"); [vm_compute; reflexivity |].
    exists (-12)%Z. split; [| reflexivity].
    split; [vm_compute; reflexivity | lia].
Defined.

(** C1 as stated fails: with [DB_PORT] unset in the environment, a
    [.env] file that supplies it decides the field, not the default. *)
Lemma LoadConfig_dotenv_beats_default :
  environ dotenv_scenario !! name DB_PORT = None /\
  exists cnf' w',
    LoadConfig NewService dotenv_scenario = (Returned (cnf', None), w') /\
    field DB_PORT cnf' = VString "5432" /\
    field DB_PORT cnf' <> documented_default DB_PORT.
Proof.
  split; [vm_compute; reflexivity |].
  eexists _, _. split; [apply LoadConfig_run |].
  split; [vm_compute; reflexivity | vm_compute; discriminate].
Qed.

(** C3 (as amended).  Whatever text [REDIS_DB] holds, [LoadConfig]
    returns nil; when the text is not a decimal literal and the digits
    before its first offending byte do not exceed the range of a 64-bit
    unsigned integer (which is so for every text of at most nineteen
    bytes), [RedisConfig.DB] is 0. *)
Theorem LoadConfig_malformed_REDIS_DB
    (cnf : Service) (w : World) (text : string) :
  environ w !! "REDIS_DB" = Some text ->
  exists cnf' w',
    LoadConfig cnf w = (Returned (cnf', None), w') /\
    (non_numeric text -> leading_digits_fit text ->
     RedisConfig.DB (GetRedisConfig cnf') = 0%Z) /\
    (non_numeric text -> (String.length text <= 19)%nat ->
     RedisConfig.DB (GetRedisConfig cnf') = 0%Z).
Proof.
  intros Hset.
  exists (loaded cnf (effective_environ w)), (after_load w).
  split; [apply LoadConfig_run |].
  assert (non_numeric text -> leading_digits_fit text ->
          RedisConfig.DB (GetRedisConfig (loaded cnf (effective_environ w)))
          = 0%Z) as Hzero.
  { intros Hnn Hfit.
    pose proof (field_loaded REDIS_DB cnf (effective_environ w)) as Hf.
    rewrite lookup_effective_environ in Hf. cbn [name] in Hf.
    rewrite Hset in Hf. unfold parse_setting in Hf.
    cbn [field is_integer_setting] in Hf.
    rewrite (Atoi_non_numeric _ Hnn Hfit) in Hf.
    injection Hf as Hf. exact Hf. }
  split; [exact Hzero |].
  intros Hnn Hshort. apply Hzero; [exact Hnn | apply short_text_fits, Hshort].
Qed.

Lemma LoadConfig_malformed_REDIS_DB_witness :
  exists cnf' w',
    LoadConfig NewService scenario = (Returned (cnf', None), w') /\
    RedisConfig.DB (GetRedisConfig cnf') = 0%Z.
Proof.
  destruct (LoadConfig_malformed_REDIS_DB NewService scenario "abc")
    as (cnf' & w' & Hrun & Hzero & _).
  - vm_compute; reflexivity.
  - exists cnf', w'. split; [exact Hrun |].
    apply Hzero; vm_compute; [reflexivity | reflexivity].
Defined.

(** C3 as stated fails: a text that is not a number, but starts with
    more digits than a 64-bit integer holds, resolves to the largest
    [int], not to 0. *)
Lemma LoadConfig_overflowing_REDIS_DB :
  environ overflow_scenario !! "REDIS_DB" = Some "99999999999999999999x" /\
  non_numeric "99999999999999999999x" /\
  exists cnf' w',
    LoadConfig NewService overflow_scenario = (Returned (cnf', None), w') /\
    RedisConfig.DB (GetRedisConfig cnf') = 9223372036854775807%Z /\
    RedisConfig.DB (GetRedisConfig cnf') <> 0%Z.
Proof.
  split; [vm_compute; reflexivity |].
  split; [vm_compute; reflexivity |].
  eexists _, _. split; [apply LoadConfig_run |].
  split; [vm_compute; reflexivity | vm_compute; discriminate].
Qed.

End ResolutionClaims.

(** * The configuration service: idempotence, accessors, discarded errors *)

Section LoadingClaims.

Import config.

(** C5.  A second [LoadConfig] on the service that the first one
    populated, in the process as the first one left it, populates the
    four groups with the same contents. *)
Theorem LoadConfig_idempotent (cnf : Service) (w : World) :
  exists cnf1 w1 cnf2 w2,
    LoadConfig cnf w = (Returned (cnf1, None), w1) /\
    LoadConfig cnf1 w1 = (Returned (cnf2, None), w2) /\
    GetDBConfig cnf2 = GetDBConfig cnf1 /\
    GetRedisConfig cnf2 = GetRedisConfig cnf1 /\
    GetServerConfig cnf2 = GetServerConfig cnf1 /\
    GetJaegerConfig cnf2 = GetJaegerConfig cnf1 /\
    cnf2 = cnf1.
Proof.
  exists (loaded cnf (effective_environ w)), (after_load w).
  exists (loaded (loaded cnf (effective_environ w))
            (effective_environ (after_load w))),
         (after_load (after_load w)).
  split; [apply LoadConfig_run |].
  split; [apply LoadConfig_run |].
  rewrite effective_environ_after_load.
  repeat split; reflexivity.
Qed.

(** C6.  After [LoadConfig] each accessor returns the whole group that
    was just populated, every field of it resolved in the environment
    that [LoadConfig] left. *)
Theorem accessors_return_loaded_groups (cnf : Service) (w : World) :
  exists cnf' w',
    LoadConfig cnf w = (Returned (cnf', None), w') /\
    GetDBConfig cnf'
    = {| DBConfig.Host := resolve (environ w') "DB_HOST" "localhost";
         DBConfig.Port := resolve (environ w') "DB_PORT" "3306";
         DBConfig.User := resolve (environ w') "DB_USER" "user";
         DBConfig.Password := resolve (environ w') "DB_PASSWORD" "password";
         DBConfig.Name := resolve (environ w') "DB_NAME" "mydatabase" |} /\
    GetRedisConfig cnf'
    = {| RedisConfig.Host := resolve (environ w') "REDIS_HOST" "localhost";
         RedisConfig.Port := resolve (environ w') "REDIS_PORT" "6379";
         RedisConfig.Password :=
           resolve (environ w') "REDIS_PASSWORD" EmptyString;
         RedisConfig.DB :=
           fst (strconv.Atoi (resolve (environ w') "REDIS_DB" "0")) |} /\
    GetServerConfig cnf'
    = {| ServerConf.Address := resolve (environ w') "SERVER_ADDR" EmptyString;
         ServerConf.Port := resolve (environ w') "SERVER_PORT" "8080" |} /\
    GetJaegerConfig cnf'
    = {| JaegerConfig.AgentHost :=
           resolve (environ w') "JAEGER_AGENT_HOST" "localhost";
         JaegerConfig.AgentPort :=
           resolve (environ w') "JAEGER_AGENT_PORT" "6831" |}.
Proof.
  exists (loaded cnf (effective_environ w)), (after_load w).
  split; [apply LoadConfig_run |].
  repeat split; reflexivity.
Qed.

(** C9 (as amended).  A recognised variable that is set to the empty
    string resolves its string field to the empty string, whatever the
    default and whatever a [.env] file says; for [REDIS_DB], whose field
    is an integer, the empty text is parsed permissively and the field
    is 0. *)
Theorem LoadConfig_empty_value (v : EnvVar) (cnf : Service) (w : World) :
  environ w !! name v = Some EmptyString ->
  exists cnf' w',
    LoadConfig cnf w = (Returned (cnf', None), w') /\
    field v cnf' = if is_integer_setting v then VInt 0 else VString EmptyString.
Proof.
  intros Hset.
  exists (loaded cnf (effective_environ w)), (after_load w).
  split; [apply LoadConfig_run |].
  rewrite field_loaded, lookup_effective_environ, Hset.
  unfold parse_setting. destruct (is_integer_setting v); reflexivity.
Qed.

Lemma LoadConfig_empty_value_witness :
  exists cnf' w',
    LoadConfig NewService empty_scenario = (Returned (cnf', None), w') /\
    field DB_HOST cnf' = VString EmptyString.
Proof.
  destruct (LoadConfig_empty_value DB_HOST NewService empty_scenario)
    as (cnf' & w' & Hrun & Hfield).
  - vm_compute; reflexivity.
  - exists cnf', w'. split; [exact Hrun | exact Hfield].
Defined.

(** C9 as stated fails for [REDIS_DB]: set to the empty string, its
    field is not the empty string but the integer 0, which is the
    documented default. *)
Lemma LoadConfig_empty_REDIS_DB :
  environ empty_scenario !! name REDIS_DB = Some EmptyString /\
  exists cnf' w',
    LoadConfig NewService empty_scenario = (Returned (cnf', None), w') /\
    field REDIS_DB cnf' <> VString EmptyString /\
    field REDIS_DB cnf' = documented_default REDIS_DB.
Proof.
  split; [vm_compute; reflexivity |].
  eexists _, _. split; [apply LoadConfig_run |].
  split; [vm_compute; discriminate | vm_compute; reflexivity].
Qed.

(** C10.  When the [.env] file is absent, unreadable or malformed,
    [godotenv.Load] returns an error, [LoadConfig] drops it and returns
    nil, the process environment is what it was, and every field is
    resolved from it and the defaults. *)
Theorem LoadConfig_discards_dotenv_error (cnf : Service) (w : World) :
  dotenv w = FileAbsent \/ dotenv w = FileUnreadable
  \/ dotenv w = FileMalformed ->
  (exists e w1, godotenv.Load w = (Returned (Some e), w1)) /\
  exists cnf' w',
    LoadConfig cnf w = (Returned (cnf', None), w') /\
    environ w' = environ w /\
    forall v,
      field v cnf'
      = match environ w !! name v with
        | Some text => parse_setting v text
        | None => documented_default v
        end.
Proof.
  intros Hfile. split.
  - unfold godotenv.Load.
    destruct Hfile as [-> | [-> | ->]]; eexists _, _; reflexivity.
  - exists (loaded cnf (effective_environ w)), (after_load w).
    split; [apply LoadConfig_run |].
    assert (effective_environ w = environ w) as Heff
      by (unfold effective_environ;
          destruct Hfile as [-> | [-> | ->]]; reflexivity).
    split.
    + cbn [after_load environ]. exact Heff.
    + intros v. rewrite field_loaded, Heff. reflexivity.
Qed.

Lemma LoadConfig_discards_dotenv_error_witness :
  exists cnf' w',
    LoadConfig NewService malformed_scenario = (Returned (cnf', None), w') /\
    field SERVER_PORT cnf' = VString "9090" /\
    field DB_PORT cnf' = VString "3306".
Proof.
  destruct (LoadConfig_discards_dotenv_error NewService malformed_scenario)
    as (_ & cnf' & w' & Hrun & _ & Hfields).
  - right; right; reflexivity.
  - exists cnf', w'. split; [exact Hrun |].
    split; rewrite Hfields; vm_compute; reflexivity.
Defined.

End LoadingClaims.

(** * The entrypoint: version query, exit status, lifecycle *)

Section ServerClaims.

Import application server.



(** C7.  When [Initialize] returns an error, [main] logs it at fatal
    level, with the message and the error detail, and the process ends
    with a non-zero status in the state that [Initialize] left: [Run]
    is never entered.  The exit status is 0 only after a version query
    or a clean shutdown. *)
Theorem main_exit_status (b : Build) (w : World) :
  (forall app e w1,
      ~ version_query (args w) ->
      Initialize uninitialized w = (Returned (app, Some e), w1) ->
      main b w
      = (Exited 1,
         emit (fatal_entry "failed to initialize application" e) w1)
      /\ exit_status (fst (main b w)) <> 0%Z)
  /\ (exit_status (fst (main b w)) = 0%Z ->
      version_query (args w) \/ clean_shutdown b w).
Proof.
  split.
  - intros app e w1 Hq Hinit.
    assert (main b w = bootstrap b w) as Hmain.
    { apply main_other.
      destruct (version_flag (args w)) eqn:Hflag; [| reflexivity].
      apply version_flag_true in Hflag. contradiction. }
    destruct (bootstrap_run b w) as (app1 & err1 & w1' & Hinit' & Hboot).
    rewrite Hinit in Hinit'. injection Hinit' as <- <- <-.
    rewrite Hmain, Hboot. split; [reflexivity | discriminate].
  - intros Hstatus.
    destruct (version_flag (args w)) eqn:Hflag.
    + left. apply version_flag_true, Hflag.
    + right. rewrite (main_other b w Hflag) in Hstatus.
      destruct (bootstrap_run b w) as (app1 & err1 & w1 & Hinit & Hboot).
      destruct err1 as [e |].
      * rewrite Hboot in Hstatus. discriminate.
      * destruct Hboot as (app2 & err2 & w2 & Hrun & Hboot).
        destruct err2 as [e |].
        -- rewrite Hboot in Hstatus. discriminate.
        -- destruct (Run_nil _ _ _ _ Hrun) as (_ & Hstopped & Htrigger).
           exists app1, w1, app2, w2.
           repeat split; try assumption.
           cbn [emit host] in Htrigger.
           rewrite (Initialize_keeps_host _ _ _ _ _ Hinit) in Htrigger.
           exact Htrigger.
Qed.

Lemma main_exit_status_witness :
  main default_build faulty_process
  = (Exited 1,
     emit (fatal_entry "failed to initialize application"
             "logger: cannot open sink") faulty_process)
  /\ exit_status (fst (main default_build faulty_process)) <> 0%Z.
Proof.
  apply (proj1 (main_exit_status default_build faulty_process) uninitialized).
  - intros (prog & flag & rest & Hargs & _). discriminate.
  - reflexivity.
Defined.

(** C8.  [Run] on a controller that is not in the Initialized state
    returns an error and changes nothing: the controller is as it was,
    and so is the process, in which no subsystem was started. *)
Theorem Run_requires_Initialized (app : Application) (w : World) :
  state app <> Initialized ->
  exists e, Run app w = (Returned (app, Some e), w).
Proof.
  intros Hstate. unfold Run.
  destruct (state app); try (eexists; reflexivity).
  contradiction.
Qed.

Lemma Run_requires_Initialized_witness :
  exists e,
    Run uninitialized scenario = (Returned (uninitialized, Some e), scenario).
Proof.
  apply (Run_requires_Initialized uninitialized scenario).
  discriminate.
Defined.

End ServerClaims.

(** * [strconv.Atoi] beyond the range of [int] *)

Section RangeFacts.

Import strconv decimal.
Local Open Scope Z_scope.

Lemma digits_leading_value (cs : string) : forall acc u,
  digits_value cs acc = Some u -> leading_value cs acc = u.
Proof.
  induction cs as [| c rest IH]; intros acc u H;
    cbn [digits_value leading_value] in H |- *.
  - congruence.
  - destruct (is_digit c); [apply IH, H | discriminate].
Qed.

(** One step of the loop of [ParseUint] on a digit, overflow included:
    the product is checked against the cutoff, the sum by its
    wrap-around. *)
Lemma ParseUint_loop_digit (c : ascii) (rest : string) (n : Z) :
  is_digit c = true -> 0 <= n <= 18446744073709551615 ->
  ParseUint_loop cutoff10 maxVal64 (String c rest) n
  = if 18446744073709551615 <? n * 10 + (code c - 48)
    then (maxVal64, Some ErrRange)
    else ParseUint_loop cutoff10 maxVal64 rest (n * 10 + (code c - 48)).
Proof.
  intros Hd Hn. pose proof (is_digit_range c Hd) as Hc.
  destruct (Z.ltb_spec 18446744073709551615 (n * 10 + (code c - 48)))
    as [Hover | Hfit].
  - cbn [ParseUint_loop]. cbv zeta.
    replace ((48 <=? code c) && (code c <=? 57)) with true
      by (symmetry; apply andb_true_iff; lia).
    rewrite (byte_small (code c - 48)) by lia.
    rewrite (byte_small 10) by lia.
    replace (10 <=? code c - 48) with false by lia.
    rewrite cutoff10_value.
    destruct (Z.leb_spec 1844674407370955162 n) as [Hcut | Hcut];
      [reflexivity |].
    rewrite (uint64_small (n * 10)) by lia.
    replace (uint64 (n * 10 + (code c - 48)))
      with (n * 10 + (code c - 48) - 18446744073709551616).
    2:{ unfold uint64, wrap_unsigned.
        change (2 ^ 64) with 18446744073709551616.
        replace (n * 10 + (code c - 48))
          with (n * 10 + (code c - 48) - 18446744073709551616
                + 1 * 18446744073709551616) at 2 by lia.
        rewrite Z_mod_plus_full, Z.mod_small by lia. reflexivity. }
    replace (n * 10 + (code c - 48) - 18446744073709551616 <? n * 10)
      with true by lia.
    reflexivity.
  - apply ParseUint_loop_step; [exact Hd | lia | exact Hfit].
Qed.

(** Digits that overflow 64 bits are a range error, whatever follows
    them. *)
Lemma ParseUint_loop_overflow (cs : string) : forall acc,
  0 <= acc <= 18446744073709551615 ->
  18446744073709551615 < leading_value cs acc ->
  ParseUint_loop cutoff10 maxVal64 cs acc = (maxVal64, Some ErrRange).
Proof.
  induction cs as [| c rest IH]; intros acc Hacc Hover;
    cbn [leading_value] in Hover.
  - lia.
  - destruct (is_digit c) eqn:Hd; [| lia].
    pose proof (is_digit_range c Hd) as Hc.
    rewrite ParseUint_loop_digit by assumption.
    destruct (Z.ltb_spec 18446744073709551615 (acc * 10 + (code c - 48)));
      [reflexivity |].
    apply IH; [lia | exact Hover].
Qed.

Lemma long_unsigned_part (s : string) :
  1000000000000000000 <= leading_value (unsigned_part s) 0 ->
  ~ (0 < Z.of_nat (String.length s) < 19).
Proof.
  intros Hbig Hlen.
  pose proof (unsigned_part_shorter s) as Hsh.
  pose proof (leading_value_bound (unsigned_part s) 0 ltac:(lia)) as Hb.
  assert (10 ^ Z.of_nat (String.length (unsigned_part s)) <= 10 ^ 18)
    by (apply Z.pow_le_mono_r; lia).
  change (10 ^ 18) with 1000000000000000000 in *. lia.
Qed.

(** What [ParseInt] makes of an unsigned value, or of a range error of
    [ParseUint], at [bitSize] 64. *)
Lemma Atoi_slow_unsigned (s : string) (un : Z) (err : option NumError) :
  ~ (0 < Z.of_nat (String.length s) < 19) ->
  unsigned_part s <> EmptyString ->
  ParseUint_loop cutoff10 maxVal64 (unsigned_part s) 0 = (un, err) ->
  match err with Some e => is_range e = true | None => True end ->
  9223372036854775808 <= un <= 18446744073709551615 ->
  (is_negative s = true -> 9223372036854775808 < un) ->
  Atoi s = (if is_negative s then MinInt64 else MaxInt64, Some ErrRange).
Proof.
  intros Hlen Hne Hloop Herr Hun Hneg.
  rewrite Atoi_slow by exact Hlen.
  destruct s as [| c0 tl]; [contradiction Hne; reflexivity |].
  unfold ParseInt. cbv zeta. rewrite ParseInt_unsigned_part.
  rewrite ParseUint_nonempty by exact Hne. rewrite Hloop.
  replace (match err with
           | Some e => negb (is_range e)
           | None => false
           end) with false
    by (destruct err as [e |]; [rewrite Herr |]; reflexivity).
  change (0 =? 0) with true. cbv iota.
  change (uint64 (Z.shiftl 1 (intSize - 1))) with 9223372036854775808.
  cbn [is_negative] in Hneg |- *.
  destruct (Ascii.eqb c0 "-"); cbn [negb andb].
  - replace (9223372036854775808 <? un) with true
      by (specialize (Hneg eq_refl); lia).
    reflexivity.
  - replace (9223372036854775808 <=? un) with true by lia.
    reflexivity.
Qed.

(** Leading digits beyond 64 bits make [Atoi] answer the extreme [int]
    of the sign, with a range error. *)
Lemma Atoi_overflowing_prefix (s : string) :
  18446744073709551615 < leading_value (unsigned_part s) 0 ->
  Atoi s = (if is_negative s then MinInt64 else MaxInt64, Some ErrRange).
Proof.
  intros Hover.
  apply (Atoi_slow_unsigned s maxVal64 (Some ErrRange)).
  - apply long_unsigned_part. lia.
  - intros Hempty. rewrite Hempty in Hover. cbn in Hover. lia.
  - apply ParseUint_loop_overflow; [lia | exact Hover].
  - reflexivity.
  - rewrite maxVal64_value. lia.
  - intros _. rewrite maxVal64_value. lia.
Qed.

(** A decimal literal outside the range of [int] saturates. *)
Lemma Atoi_literal_out_of_range (s : string) (z : Z) :
  decimal_literal s = Some z ->
  ~ (- 9223372036854775808 <= z < 9223372036854775808) ->
  Atoi s = (if is_negative s then MinInt64 else MaxInt64, Some ErrRange)
  /\ (is_negative s = true <-> z < 0).
Proof.
  unfold decimal_literal. intros Hlit Hrange.
  destruct (unsigned_part s) as [| d ds] eqn:Hu; [discriminate |].
  destruct (digits_value (String d ds) 0) as [u |] eqn:Hdv; [| discriminate].
  injection Hlit as Hz.
  assert (0 <= u) as Hu0
    by (apply (digits_value_le (String d ds)); [lia | exact Hdv]).
  pose proof (digits_leading_value _ _ _ Hdv) as Hlead.
  assert (is_negative s = true <-> z < 0) as Hsign
    by (destruct (is_negative s); split; intros; (discriminate || lia)).
  split; [| exact Hsign].
  destruct (Z_lt_dec 18446744073709551615 u) as [Hover | Hfit].
  - apply Atoi_overflowing_prefix. rewrite Hu, Hlead. exact Hover.
  - apply (Atoi_slow_unsigned s u None).
    + apply long_unsigned_part. rewrite Hu, Hlead.
      destruct (is_negative s); lia.
    + rewrite Hu. discriminate.
    + rewrite Hu. apply ParseUint_loop_digits; [lia | exact Hdv | lia].
    + exact I.
    + destruct (is_negative s); lia.
    + intros Hneg. rewrite Hneg in Hz. lia.
Qed.


End RangeFacts.

(** * The configuration service: every field has a value *)

Section TotalityClaim.

Import config decimal.





End TotalityClaim.

(** * The configuration service: more of its behaviour *)

Section ConfigExtras.

Import config decimal.

Lemma lookup_effective_with_variable
    (w : World) (key value other : string) :
  key <> other ->
  effective_environ (with_variable key value w) !! other
  = effective_environ w !! other.
Proof.
  intros Hne. rewrite !lookup_effective_environ.
  unfold with_variable, set_environ. cbn [environ dotenv].
  rewrite lookup_insert_ne by exact Hne. reflexivity.
Qed.

Lemma lookup_effective_reload (w : World) (f : DotEnvFile) (key : string) :
  effective_environ (with_dotenv f (after_load w)) !! key
  = match effective_environ w !! key with
    | Some text => Some text
    | None => exported_pairs f !! key
    end.
Proof.
  rewrite lookup_effective_environ.
  unfold with_dotenv, after_load. cbn [environ dotenv]. reflexivity.
Qed.


(** X2.  Settings are resolved independently: setting any other
    variable in the process environment, to any value, leaves the field
    of a variable as it would have been. *)
Theorem LoadConfig_other_variable
    (v : EnvVar) (cnf : Service) (w : World) (key value : string) :
  key <> name v ->
  exists cnf1 w1 cnf2 w2,
    LoadConfig cnf w = (Returned (cnf1, None), w1) /\
    LoadConfig cnf (with_variable key value w) = (Returned (cnf2, None), w2) /\
    field v cnf2 = field v cnf1.
Proof.
  intros Hne.
  exists (loaded cnf (effective_environ w)), (after_load w).
  exists (loaded cnf (effective_environ (with_variable key value w))),
         (after_load (with_variable key value w)).
  split; [apply LoadConfig_run |].
  split; [apply LoadConfig_run |].
  rewrite !field_loaded, lookup_effective_with_variable by exact Hne.
  reflexivity.
Qed.

Lemma LoadConfig_other_variable_witness :
  exists cnf1 w1 cnf2 w2,
    LoadConfig NewService scenario = (Returned (cnf1, None), w1) /\
    LoadConfig NewService (with_variable "DB_PORT" "5432" scenario)
    = (Returned (cnf2, None), w2) /\
    field REDIS_PORT cnf2 = field REDIS_PORT cnf1.
Proof.
  apply (LoadConfig_other_variable REDIS_PORT NewService scenario
           "DB_PORT" "5432").
  discriminate.
Defined.

(** X3.  [LoadConfig] replaces the four groups wholesale and touches
    nothing else of the receiver: what the groups held before has no
    influence on what they hold after, and [Name] is kept. *)
Theorem LoadConfig_replaces_groups (cnf1 cnf2 : Service) (w : World) :
  exists cnf1' cnf2' w',
    LoadConfig cnf1 w = (Returned (cnf1', None), w') /\
    LoadConfig cnf2 w = (Returned (cnf2', None), w') /\
    GetDBConfig cnf1' = GetDBConfig cnf2' /\
    GetRedisConfig cnf1' = GetRedisConfig cnf2' /\
    GetServerConfig cnf1' = GetServerConfig cnf2' /\
    GetJaegerConfig cnf1' = GetJaegerConfig cnf2' /\
    Name cnf1' = Name cnf1 /\ Name cnf2' = Name cnf2.
Proof.
  exists (loaded cnf1 (effective_environ w)),
         (loaded cnf2 (effective_environ w)), (after_load w).
  split; [apply LoadConfig_run |].
  split; [apply LoadConfig_run |].
  repeat split; reflexivity.
Qed.

(** X4.  What [LoadConfig] does to the process besides the
    environment: one load of [.env], then one lookup of each of the
    thirteen recognised variables, [DB_PORT] first and [REDIS_DB] before
    the other cache variables; nothing is written or logged, and the
    arguments, the [.env] file and the host are as they were. *)
Theorem LoadConfig_reads (cnf : Service) (w : World) :
  exists cnf' w',
    LoadConfig cnf w = (Returned (cnf', None), w') /\
    trace w'
    = trace w
      ++ EvLoadDotEnv
         :: map EvLookupEnv
              ["DB_PORT"; "DB_HOST"; "DB_USER"; "DB_PASSWORD"; "DB_NAME";
               "REDIS_DB"; "REDIS_HOST"; "REDIS_PORT"; "REDIS_PASSWORD";
               "SERVER_ADDR"; "SERVER_PORT";
               "JAEGER_AGENT_HOST"; "JAEGER_AGENT_PORT"] /\
    args w' = args w /\ dotenv w' = dotenv w /\ host w' = host w.
Proof.
  exists (loaded cnf (effective_environ w)), (after_load w).
  split; [apply LoadConfig_run |].
  repeat split; reflexivity.
Qed.

(** X5.  What [LoadConfig] does to the process environment: a variable
    that was set keeps its value; a variable that was unset and that the
    [.env] file holds is now set to the file's value, provided
    [os.Setenv] accepts the pair (a non-empty key without ['='] or NUL,
    a value without NUL); no other variable appears. *)
Theorem LoadConfig_environment (cnf : Service) (w : World) :
  exists cnf' w',
    LoadConfig cnf w = (Returned (cnf', None), w') /\
    forall key,
      environ w' !! key
      = match environ w !! key with
        | Some text => Some text
        | None =>
            match dotenv_pairs (dotenv w) !! key with
            | Some text =>
                if os.Setenv_accepts key text then Some text else None
            | None => None
            end
        end.
Proof.
  exists (loaded cnf (effective_environ w)), (after_load w).
  split; [apply LoadConfig_run |].
  intros key. cbn [after_load environ].
  rewrite lookup_effective_environ.
  destruct (environ w !! key); [reflexivity |].
  unfold exported_pairs. apply lookup_exported.
Qed.

(** X6.  A decimal literal in [REDIS_DB] that does not fit [int] is not
    rejected and does not become 0: [RedisConfig.DB] is the largest
    [int] for a positive literal and the smallest for a negative one,
    and [LoadConfig] still returns nil. *)
Theorem LoadConfig_REDIS_DB_saturates
    (cnf : Service) (w : World) (text : string) (z : Z) :
  environ w !! "REDIS_DB" = Some text ->
  decimal_literal text = Some z ->
  ~ (- 9223372036854775808 <= z < 9223372036854775808)%Z ->
  exists cnf' w',
    LoadConfig cnf w = (Returned (cnf', None), w') /\
    RedisConfig.DB (GetRedisConfig cnf')
    = if (z <? 0)%Z then MinInt64 else MaxInt64.
Proof.
  intros Hset Hlit Hrange.
  exists (loaded cnf (effective_environ w)), (after_load w).
  split; [apply LoadConfig_run |].
  pose proof (field_loaded REDIS_DB cnf (effective_environ w)) as Hf.
  rewrite lookup_effective_environ in Hf. cbn [name] in Hf.
  rewrite Hset in Hf. unfold parse_setting in Hf.
  cbn [field is_integer_setting] in Hf.
  destruct (Atoi_literal_out_of_range text z Hlit Hrange) as [Hatoi Hsign].
  rewrite Hatoi in Hf. injection Hf as Hf. cbn [fst] in Hf.
  etransitivity; [exact Hf |].
  destruct (is_negative text); destruct (Z.ltb_spec z 0);
    try reflexivity.
  - exfalso. assert (z < 0)%Z by (apply Hsign; reflexivity). lia.
  - exfalso. assert (false = true) by (apply Hsign; assumption).
    discriminate.
Qed.

Lemma LoadConfig_REDIS_DB_saturates_witness :
  exists cnf' w',
    LoadConfig NewService huge_scenario = (Returned (cnf', None), w') /\
    RedisConfig.DB (GetRedisConfig cnf') = MinInt64.
Proof.
  apply (LoadConfig_REDIS_DB_saturates NewService huge_scenario
           "-9223372036854775809" (-9223372036854775809)%Z).
  - vm_compute; reflexivity.
  - vm_compute; reflexivity.
  - lia.
Defined.

(** X7.  Whatever follows them, leading digits of [REDIS_DB] that
    exceed a 64-bit unsigned integer decide the field: it is the
    smallest [int] when the text starts with a minus sign and the largest
    otherwise. *)
Theorem LoadConfig_REDIS_DB_overflowing_prefix
    (cnf : Service) (w : World) (text : string) :
  environ w !! "REDIS_DB" = Some text ->
  (18446744073709551615 < leading_value (unsigned_part text) 0)%Z ->
  exists cnf' w',
    LoadConfig cnf w = (Returned (cnf', None), w') /\
    RedisConfig.DB (GetRedisConfig cnf')
    = if is_negative text then MinInt64 else MaxInt64.
Proof.
  intros Hset Hover.
  exists (loaded cnf (effective_environ w)), (after_load w).
  split; [apply LoadConfig_run |].
  pose proof (field_loaded REDIS_DB cnf (effective_environ w)) as Hf.
  rewrite lookup_effective_environ in Hf. cbn [name] in Hf.
  rewrite Hset in Hf. unfold parse_setting in Hf.
  cbn [field is_integer_setting] in Hf.
  rewrite (Atoi_overflowing_prefix text Hover) in Hf.
  injection Hf as Hf. exact Hf.
Qed.

Lemma LoadConfig_REDIS_DB_overflowing_prefix_witness :
  exists cnf' w',
    LoadConfig NewService overflow_scenario = (Returned (cnf', None), w') /\
    RedisConfig.DB (GetRedisConfig cnf') = MaxInt64.
Proof.
  apply (LoadConfig_REDIS_DB_overflowing_prefix NewService overflow_scenario
           "99999999999999999999x").
  - vm_compute; reflexivity.
  - vm_compute; reflexivity.
Defined.

(** X8.  A later [LoadConfig] in the same process cannot take back
    what an earlier one found: whatever became of the [.env] file in
    between, every variable that was set for the first load, by the
    environment or by the file, resolves to the same field in the second;
    only fields that were at their default can change. *)
Theorem LoadConfig_reload_keeps_settings
    (v : EnvVar) (cnf : Service) (w : World) (f : DotEnvFile) :
  exists cnf1 w1 cnf2 w2,
    LoadConfig cnf w = (Returned (cnf1, None), w1) /\
    LoadConfig cnf1 (with_dotenv f w1) = (Returned (cnf2, None), w2) /\
    (is_Some (environ w1 !! name v) -> field v cnf2 = field v cnf1) /\
    (f = FileAbsent -> cnf2 = cnf1).
Proof.
  exists (loaded cnf (effective_environ w)), (after_load w).
  exists (loaded (loaded cnf (effective_environ w))
            (effective_environ (with_dotenv f (after_load w)))),
         (after_load (with_dotenv f (after_load w))).
  split; [apply LoadConfig_run |].
  split; [apply LoadConfig_run |].
  split.
  - cbn [after_load environ]. intros [text Hset].
    rewrite !field_loaded, lookup_effective_reload, Hset. reflexivity.
  - intros ->. reflexivity.
Qed.

Lemma LoadConfig_reload_keeps_settings_witness :
  exists cnf1 w1 cnf2 w2,
    LoadConfig NewService layered_scenario = (Returned (cnf1, None), w1) /\
    LoadConfig cnf1
      (with_dotenv (FileParsed (<["REDIS_DB" := "9"]> ∅)) w1)
    = (Returned (cnf2, None), w2) /\
    field REDIS_DB cnf2 = field REDIS_DB cnf1.
Proof.
  destruct (LoadConfig_reload_keeps_settings REDIS_DB NewService
              layered_scenario (FileParsed (<["REDIS_DB" := "9"]> ∅)))
    as (cnf1 & w1 & cnf2 & w2 & Hrun1 & Hrun2 & Hkeep & _).
  exists cnf1, w1, cnf2, w2.
  split; [exact Hrun1 |]. split; [exact Hrun2 |].
  apply Hkeep.
  rewrite LoadConfig_run in Hrun1. injection Hrun1 as _ <-.
  exists "3". vm_compute; reflexivity.
Defined.

End ConfigExtras.

(** * The entrypoint: after a successful [Initialize] *)

Section ServerExtras.

Import application server.

Lemma Initialize_succeeds (w : World) :
  logger_fault (host w) = None -> wiring_fault (host w) = None ->
  Initialize uninitialized w
  = (Returned
       ({| state := Initialized;
           cfg := loaded config.NewService (effective_environ w);
           owned := ["database"; "cache"; "tracer"] |}, None),
     after_load w).
Proof.
  intros Hlogger Hwiring. unfold Initialize. cbn [uninitialized state cfg].
  unfold bind at 1. unfold host_condition at 1. rewrite Hlogger.
  unfold config.Init.
  erewrite bind_returned by apply LoadConfig_run.
  unfold bind, host_condition. cbn [after_load host]. rewrite Hwiring.
  reflexivity.
Qed.

(** X9.  Once [Initialize] has returned nil, [main] logs the entry
    "starting application" with the version, commit and build date, and
    only then enters [Run]; what [Run] returns decides the rest: on nil
    [main] returns (status 0), on an error it logs "application failed"
    with the error detail at fatal level and the process ends with
    status 1. *)
Theorem main_after_Initialize
    (b : Build) (w : World) (app1 : Application) (w1 : World) :
  ~ version_query (args w) ->
  Initialize uninitialized w = (Returned (app1, None), w1) ->
  exists app2 err2 w2,
    Run app1 (emit (starting_entry b) w1) = (Returned (app2, err2), w2) /\
    main b w
    = match err2 with
      | Some e => (Exited 1, emit (fatal_entry "application failed" e) w2)
      | None => (Returned tt, w2)
      end.
Proof.
  intros Hq Hinit.
  assert (main b w = bootstrap b w) as Hmain.
  { apply main_other.
    destruct (version_flag (args w)) eqn:Hflag; [| reflexivity].
    apply version_flag_true in Hflag. contradiction. }
  destruct (bootstrap_run b w) as (app1' & err1 & w1' & Hinit' & Hboot).
  rewrite Hinit in Hinit'. injection Hinit' as <- <- <-.
  destruct Hboot as (app2 & err2 & w2 & Hrun & Hboot).
  exists app2, err2, w2. split; [exact Hrun |].
  rewrite Hmain. exact Hboot.
Qed.

Lemma main_after_Initialize_witness :
  exit_status (fst (main default_build crashing_process)) = 1%Z.
Proof.
  assert (~ version_query (args crashing_process)) as Hq.
  { intros (prog & flag & rest & Hargs & Hflag).
    injection Hargs as _ <- _. destruct Hflag; discriminate. }
  destruct (main_after_Initialize default_build crashing_process _ _ Hq
              (Initialize_succeeds crashing_process eq_refl eq_refl))
    as (app2 & err2 & w2 & Hrun & Hmain).
  rewrite Hmain.
  vm_compute in Hrun. injection Hrun as _ <- _. reflexivity.
Defined.

End ServerExtras.
